(** * The schema-driven form, the chat path, the forwarder and the voice service

    A shallow embedding of the React Native front end, followed by the
    properties of the reconciliation flow that the specification states
    about it. The embedded code, by the file that holds it:
    - frontend/components/DynamicForm.js: FormField and DynamicForm;
    - frontend/services/voiceService.js: the VoiceService class (lines
      1-403), the ApiService class (lines 404-545) and the configuration
      object ENV (lines 546-659);
    - frontend/.env.example: the App component (from line 1114) and the
      ChatInterface component (from line 1653);
    - unnamed/part_001: the VoiceButton component (from line 433);
    - frontend/.env.example, lines 26-568: the size classes and the
      responsive values of styles/theme.js;
    - frontend/components/ResultsDisplay.js: the screens of ResultsDisplay.
    Line numbers in the comments below are those of these files.

    Conventions of the embedding:
    - a JavaScript value is a [value]; a plain object is a finite map from
      property names to values (the order of the keys is not observed by any
      function embedded here);
    - a JavaScript number is an IEEE 754 binary64 [float]; a string is a
      [string], one character for each code unit;
    - what the JavaScript run time decides (member reads on primitives,
      conversion to a string, [String.prototype.trim]) is a member of the
      class [Builtins]; what the platform decides (the network, the file
      system, the speech engine, the recorder) is a member of [Platform];
    - asynchronous functions are run to completion: their awaits are
      sequenced, and an exception is an outcome [Throw];
    - what is written to the console is left out. *)

From Stdlib Require Import ZArith Floats Bool Lia.
From stdpp Require Import gmap strings list fin_maps pretty.

#[local] Set Warnings "-register-all,-inexact-float".

(** ** JavaScript values *)

Inductive value : Type :=
  | VUndefined
  | VNull
  | VBool (b : bool)
  | VNum (x : float)
  | VStr (s : string)
  | VArr (items : list value)
  | VObj (props : gmap string value)
  | VBuiltin (member : string).

(** The ValueMap of the specification: the own properties of a plain object. *)
Abbreviation ValueMap := (gmap string value).

(** [ToBoolean]: [false], [0], [-0], [NaN], [''], [null] and [undefined]
    are falsy; objects and functions are truthy. *)
Definition truthy (v : value) : bool :=
  match v with
  | VUndefined | VNull => false
  | VBool b => b
  | VNum x => negb (is_zero x || is_nan x)
  | VStr s => negb (String.eqb s "")
  | VArr _ | VObj _ | VBuiltin _ => true
  end.

(** [a || b] on values. *)
Definition js_or (a b : value) : value := if truthy a then a else b.

(** [v === ''] *)
Definition is_empty_string (v : value) : bool :=
  match v with
  | VStr s => String.eqb s ""
  | _ => false
  end.

(** The members every plain object inherits from [Object.prototype]. A read
    of one of them on an object that has no own property of that name yields
    the inherited function (or, for [__proto__], the prototype object):
    [VBuiltin]. *)
Definition Object_prototype : list string :=
  [ "constructor"; "__proto__"; "hasOwnProperty"; "isPrototypeOf";
    "propertyIsEnumerable"; "toLocaleString"; "toString"; "valueOf";
    "__defineGetter__"; "__defineSetter__"; "__lookupGetter__";
    "__lookupSetter__" ].

Definition inherited (k : string) : bool := bool_decide (k ∈ Object_prototype).

(** [obj[k]] on a plain object. *)
Definition obj_get (o : ValueMap) (k : string) : value :=
  match o !! k with
  | Some v => v
  | None => if inherited k then VBuiltin k else VUndefined
  end.

(** What the run time decides. *)
Class Builtins := {
  (** [v[k]] when [v] is a string, a number, a boolean, an array or a
      function. *)
  prim_member : value -> string -> value;
  (** [String(v)] when [v] is not a string, as a template literal applies it. *)
  ToString : value -> string;
  (** [String.prototype.trim] *)
  trim : string -> string;
  (** [`${ms / 1000}`] for a number of milliseconds *)
  show_seconds : Z -> string
}.

(** [v?.[k]] *)
Definition get_member {B : Builtins} (v : value) (k : string) : value :=
  match v with
  | VUndefined | VNull => VUndefined
  | VObj o => obj_get o k
  | _ => prim_member v k
  end.

(** The own enumerable properties that [{...v}] copies: those of an object,
    the indexed elements of an array, the indexed characters of a string,
    nothing for the other values. *)
Definition indexed (l : list value) : ValueMap :=
  list_to_map (imap (fun i v => (pretty i, v)) l).

Definition string_props (s : string) : ValueMap :=
  indexed (map (fun c => VStr (String c "")) (String.list_ascii_of_string s)).

Definition spread (v : value) : ValueMap :=
  match v with
  | VObj o => o
  | VArr l => indexed l
  | VStr s => string_props s
  | _ => ∅
  end.

(** A template literal applied to one value. *)
Definition template {B : Builtins} (v : value) : string :=
  match v with
  | VStr s => s
  | _ => ToString v
  end.

(** ** components/DynamicForm.js *)

(** A field descriptor as the form reads it: [field.name], [field.type],
    [field.required], [field.description], [field.options] and
    [field.nested_schema.fields]. *)
Inductive field : Type :=
  Field {
    name : string;
    type : string;
    required : bool;
    description : option string;
    options : option (list string);
    nested_fields : option (list field)
  }.

Record schema : Type :=
  Schema {
    title : option string;
    schema_description : option string;
    fields : option (list field)
  }.

(** The state of the DynamicForm component. *)
Record DynamicForm_state : Type :=
  DynamicFormState {
    formData : ValueMap;
    validationErrors : ValueMap
  }.

(** [handleFieldChange(fieldName, value)], lines 177-190. *)
Definition handleFieldChange (st : DynamicForm_state) (fieldName : string) (v : value)
  : DynamicForm_state :=
  {| formData := <[fieldName := v]> (formData st);
     validationErrors :=
       if truthy (obj_get (validationErrors st) fieldName)
       then <[fieldName := VNull]> (validationErrors st)
       else validationErrors st |}.

(** The test of [validateForm] on one field, line 196. *)
Definition field_fails (data : ValueMap) (f : field) : bool :=
  required f && (negb (truthy (obj_get data (name f))) || is_empty_string (obj_get data (name f))).

(** The body of the [forEach] of [validateForm], lines 195-199. The
    assignment [errors[field.name] = ...] creates the property [field.name] of
    [errors], except for the name [__proto__]: on the plain object [errors]
    that assignment runs the setter that every object inherits, which ignores
    a string, and no property is created. *)
Definition validate_step (data : ValueMap) (errors : ValueMap) (f : field) : ValueMap :=
  if field_fails data f
  then
    if String.eqb (name f) "__proto__" then errors
    else <[name f := VStr (name f +:+ " is required")]> errors
  else errors.

Definition validation_errors (sch : schema) (data : ValueMap) : ValueMap :=
  match fields sch with
  | Some fs => foldl (validate_step data) ∅ fs
  | None => ∅
  end.

(** [validateForm()], lines 192-203: the errors are stored and the result
    is [Object.keys(errors).length === 0]. *)
Definition validateForm (sch : schema) (st : DynamicForm_state) : DynamicForm_state * bool :=
  let errors := validation_errors sch (formData st) in
  ({| formData := formData st; validationErrors := errors |},
   bool_decide (size errors = 0)).

(** The [onChange] that a FormField of type object hands to its children,
    lines 129-132. *)
Definition nested_onChange {A} (field_name : string) (v : value) (onChange : string -> value -> A)
  : string -> value -> A :=
  fun fieldName fieldValue => onChange field_name (VObj (<[fieldName := fieldValue]> (spread v))).

(** An edit of the leaf reached by [k :: rest] below a FormField named [k]
    that was rendered with the props [value] and [onChange]: a leaf calls
    [onChange(field.name, v)]; an object field renders the child named [k']
    with [value?.[k']] and [nested_onChange]. *)
Fixpoint FormField_edit {B : Builtins} {A} (k : string) (rest : list string) (v : value)
    (onChange : string -> value -> A) (leaf : value) : A :=
  match rest with
  | [] => onChange k leaf
  | k' :: rest' =>
      FormField_edit k' rest' (get_member v k') (nested_onChange k v onChange) leaf
  end.

(** The value prop that the FormField reached by [rest] below a field of
    value [v] is rendered with, line 128. *)
Fixpoint FormField_value {B : Builtins} (v : value) (rest : list string) : value :=
  match rest with
  | [] => v
  | k' :: rest' => FormField_value (get_member v k') rest'
  end.

(** [setField(path, value)] and the read of a path, as the form performs
    them: the top-level FormField named [k] is rendered with
    [formData[k]] and [handleFieldChange], lines 229-236. *)
Definition setField {B : Builtins} (st : DynamicForm_state) (k : string) (rest : list string)
    (leaf : value) : DynamicForm_state :=
  FormField_edit k rest (obj_get (formData st) k) (handleFieldChange st) leaf.

Definition readField {B : Builtins} (st : DynamicForm_state) (k : string) (rest : list string) : value :=
  FormField_value (obj_get (formData st) k) rest.

(** The write of a leaf below a value, in direct style. *)
Fixpoint nested_write {B : Builtins} (v : value) (rest : list string) (leaf : value) : value :=
  match rest with
  | [] => leaf
  | k' :: rest' => VObj (<[k' := nested_write (get_member v k') rest' leaf]> (spread v))
  end.

(** *** validate, as the specification words it

    Every field marked required is looked for at every nesting level that is
    reachable; the children of a nested field are visited when the nested
    field is present or required. A field is missing when the ValueMap of its
    level has no entry for it. *)
Definition child_map (data : ValueMap) (k : string) : ValueMap :=
  match data !! k with
  | Some (VObj m) => m
  | _ => ∅
  end.

Fixpoint spec_missing (prefix : list string) (data : ValueMap) (f : field) : list (list string) :=
  match f with
  | Field k _ req _ _ nested =>
      (if req && negb (bool_decide (is_Some (data !! k))) then [prefix ++ [k]] else [])
      ++ match nested with
         | Some children =>
             if bool_decide (is_Some (data !! k)) || req
             then flat_map (spec_missing (prefix ++ [k]) (child_map data k)) children
             else []
         | None => []
         end
  end.

Definition spec_validate (sch : schema) (data : ValueMap) : list (list string) :=
  flat_map (spec_missing [] data) (default [] (fields sch)).

(** The paths that [validateForm] reports: one path of length one for each
    key of [errors]. *)
Definition reported_paths (sch : schema) (data : ValueMap) : gset (list string) :=
  set_map (fun k : string => [k]) (dom (validation_errors sch data)).

(** ** Effects

    An asynchronous function is a state transformer over the [World] that
    returns a value or throws. The platform's answers are functions of the
    events so far, so that the same call may be answered differently the
    second time. *)

(** A thrown error: a plain [Error], or the error axios rejects with, whose
    [response] is present when the server answered. *)
Inductive exn : Type :=
  | Error (message : string)
  | AxiosError (message : string) (response : option (Z * value)).

Definition error_message (e : exn) : string :=
  match e with
  | Error m => m
  | AxiosError m _ => m
  end.

Inductive outcome (A : Type) : Type :=
  | Return (a : A)
  | Throw (e : exn).
Arguments Return {A} a.
Arguments Throw {A} e.

Definition M (S A : Type) : Type := S -> outcome A * S.

Definition ret {S A} (a : A) : M S A := fun s => (Return a, s).

Definition throw {S A} (e : exn) : M S A := fun s => (Throw e, s).

Definition bind {S A B} (c : M S A) (k : A -> M S B) : M S B :=
  fun s =>
    match c s with
    | (Return a, s') => k a s'
    | (Throw e, s') => (Throw e, s')
    end.

Definition get {S} : M S S := fun s => (Return s, s).

Definition modify {S} (f : S -> S) : M S unit := fun s => (Return tt, f s).

(** [try { c } catch (error) { h error }] *)
Definition try_catch {S A} (c : M S A) (h : exn -> M S A) : M S A :=
  fun s =>
    match c s with
    | (Return a, s') => (Return a, s')
    | (Throw e, s') => h e s'
    end.

(** [try { c } finally { f }], for an [f] that does not throw. *)
Definition try_finally {S A} (c : M S A) (f : S -> S) : M S A :=
  fun s => let (r, s') := c s in (r, f s').

(** [if (b) { c }] *)
Definition when {S} (b : bool) (c : M S unit) : M S unit :=
  if b then c else ret tt.

Declare Scope js_scope.
Delimit Scope js_scope with js.
Notation "'let!' x ':=' c 'in' k" := (bind c (fun x => k))
  (at level 10, x name, c at level 100, k at level 200) : js_scope.
Notation "'do!' c 'in' k" := (bind c (fun _ => k))
  (at level 10, c at level 100, k at level 200) : js_scope.

(** What the application asks of the platform, in the order it asks, and
    what the speech engine reports back ([EvSpeechReport]: the start, the
    end, the stop or the failure of an utterance). *)
Inductive event : Type :=
  | EvPost (url : string) (body : value)
  | EvAlert (title text : string)
  | EvCallback (prop : string) (arg : value)
  | EvReadFile (uri : string)
  | EvDeleteFile (uri : string) (done : bool)
  | EvFetch (url : string) (file : string)
  | EvResponseText
  | EvSpeechStop
  | EvSpeechSpeak (text : string) (rate pitch language voice : value)
  | EvSpeechReport (what : string)
  | EvPrepareToRecord
  | EvStartRecording
  | EvStopRecording
  | EvGetStatus
  | EvRequestPermissions
  | EvSetAudioMode
  | EvSetItem (key : string) (item : value)
  | EvGetItem (key : string).

(** The answer of the server to an HTTP request, or no answer. *)
Inductive http_outcome : Type :=
  | HttpResponse (status : Z) (data : value)
  | NetworkError (message : string).

(** A [Response] of [fetch]. *)
Record fetch_response : Type :=
  FetchResponse {
    ok : bool;
    status : Z;
    statusText : string
  }.

Class Platform : Type := {
  (** the server behind [apiClient] *)
  http : list event -> string -> value -> http_outcome;
  (** [FileSystem.readAsStringAsync]: the content, or the error it rejects with *)
  readAsStringAsync : list event -> string -> outcome string;
  (** [FileSystem.deleteAsync(uri, { idempotent: true })]: the error it
      rejects with, if it does *)
  deleteAsync : list event -> string -> option exn;
  (** [fetch] of the transcription endpoint and [response.text()] *)
  fetch : list event -> string -> outcome fetch_response;
  response_text : list event -> outcome string;
  (** [Speech.stop] and [Speech.speak]: the error they throw, if they do *)
  Speech_stop : list event -> option exn;
  Speech_speak : list event -> option exn;
  (** the recorder: [prepareToRecordAsync], [startAsync],
      [stopAndUnloadAsync] and [getURI] *)
  prepareToRecordAsync : list event -> option exn;
  startAsync : list event -> option exn;
  stopAndUnloadAsync : list event -> option exn;
  getURI : list event -> option string;
  getStatusAsync : list event -> outcome value;
  (** [Audio.requestPermissionsAsync] (the status it resolves to) and
      [Audio.setAudioModeAsync] *)
  requestPermissionsAsync : list event -> outcome string;
  setAudioModeAsync : list event -> option exn;
  (** [AsyncStorage.setItem] and [AsyncStorage.getItem] *)
  setItem : list event -> option exn;
  getItem : list event -> option exn;
  (** [new Date().toISOString()] *)
  toISOString : list event -> string
}.

(** ** The state of the application *)

(** The [VoiceService] singleton (constructor, lines 15-20). [recording]
    is [true] while [this.recording] is not [null]. *)
Record VoiceService_state : Type :=
  VoiceServiceState {
    recording : bool;
    vs_isRecording : bool;
    isPlaying : bool;
    speechRate : value;
    speechPitch : value
  }.

(** The state of [App]. *)
Record App_state : Type :=
  AppState {
    currentView : string;
    app_formData : value;
    apiResults : value;
    loading : bool
  }.

(** The state of [ChatInterface]. *)
Record Chat_state : Type :=
  ChatState {
    messages : list value;
    inputText : string;
    isLoading : bool;
    conversationId : value;
    followUpQuestions : value;
    isComplete : value
  }.

(** The state of [VoiceButton]; [maxTimeTimer] holds the time at which the
    pending timeout fires, [durationTimer] whether the interval is set. *)
Record VoiceButton_state : Type :=
  VoiceButtonState {
    vb_isRecording : bool;
    isTranscribing : bool;
    recordingDuration : value;
    isInitialized : bool;
    durationTimer : bool;
    maxTimeTimer : option Z
  }.

Record World : Type :=
  MkWorld {
    trace : list event;
    files : gset string;
    storage : gmap string value;
    now : Z;
    voice : VoiceService_state;
    app : App_state;
    chat : Chat_state;
    button : VoiceButton_state
  }.

Definition set_trace (f : list event -> list event) (w : World) : World :=
  MkWorld (f (trace w)) (files w) (storage w) (now w) (voice w) (app w) (chat w) (button w).

Definition set_files (f : gset string -> gset string) (w : World) : World :=
  MkWorld (trace w) (f (files w)) (storage w) (now w) (voice w) (app w) (chat w) (button w).

Definition set_storage (f : gmap string value -> gmap string value) (w : World) : World :=
  MkWorld (trace w) (files w) (f (storage w)) (now w) (voice w) (app w) (chat w) (button w).

Definition set_now (f : Z -> Z) (w : World) : World :=
  MkWorld (trace w) (files w) (storage w) (f (now w)) (voice w) (app w) (chat w) (button w).

Definition set_voice (f : VoiceService_state -> VoiceService_state) (w : World) : World :=
  MkWorld (trace w) (files w) (storage w) (now w) (f (voice w)) (app w) (chat w) (button w).

Definition set_app (f : App_state -> App_state) (w : World) : World :=
  MkWorld (trace w) (files w) (storage w) (now w) (voice w) (f (app w)) (chat w) (button w).

Definition set_chat (f : Chat_state -> Chat_state) (w : World) : World :=
  MkWorld (trace w) (files w) (storage w) (now w) (voice w) (app w) (f (chat w)) (button w).

Definition set_button (f : VoiceButton_state -> VoiceButton_state) (w : World) : World :=
  MkWorld (trace w) (files w) (storage w) (now w) (voice w) (app w) (chat w) (f (button w)).

(** An event is appended to the trace. *)
Definition emit (e : event) : M World unit := modify (set_trace (fun t => t ++ [e])).

(** A platform call that resolves or rejects. *)
Definition platform_call (e : event) (answer : list event -> option exn) : M World unit :=
  fun w =>
    match answer (trace w) with
    | None => (Return tt, set_trace (fun t => t ++ [e]) w)
    | Some err => (Throw err, set_trace (fun t => t ++ [e]) w)
    end.

(** A platform call that resolves to a value or rejects. *)
Definition platform_ask {A} (e : event) (answer : list event -> outcome A) : M World A :=
  fun w => (answer (trace w), set_trace (fun t => t ++ [e]) w).

(** [Alert.alert(title, text)] *)
Definition Alert_alert (title text : string) : M World unit := emit (EvAlert title text).

(** A callback prop of a component, called by it. *)
Definition call_prop (prop : string) (arg : value) : M World unit := emit (EvCallback prop arg).

(** [v.k]: a [TypeError] when [v] is [null] or [undefined]. *)
Definition member {B : Builtins} {S} (v : value) (k : string) : M S value :=
  match v with
  | VUndefined | VNull => throw (Error "Cannot read properties of undefined")
  | _ => ret (get_member v k)
  end.

(** A default parameter applies when the argument is [undefined]. *)
Definition default_param (d v : value) : value :=
  match v with
  | VUndefined => d
  | _ => v
  end.

(** ** services/api.js *)

(** [apiClient.post(url, body)]: axios resolves with the response when the
    status is 2xx and rejects otherwise; the two interceptors log and pass
    on what they are given. *)
Definition apiClient_post {P : Platform} (url : string) (body : value) : M World (Z * value) :=
  fun w =>
    let w' := set_trace (fun t => t ++ [EvPost url body]) w in
    match http (trace w) url body with
    | HttpResponse st data =>
        if (200 <=? st)%Z && (st <? 300)%Z
        then (Return (st, data), w')
        else (Throw (AxiosError ("Request failed with status code " +:+ pretty st)
                       (Some (st, data))), w')
    | NetworkError m => (Throw (AxiosError m None), w')
    end.

(** [error.response?.data?.detail] *)
Definition error_detail {B : Builtins} (error : exn) : value :=
  match error with
  | AxiosError _ (Some (_, data)) => get_member data "detail"
  | _ => VUndefined
  end.

(** [`${error.response?.data?.detail || error.message}`] *)
Definition error_text {B : Builtins} (error : exn) : string :=
  template (js_or (error_detail error) (VStr (error_message error))).

(** The body of the request of [forwardToExternalApi], lines 504-510. *)
Definition forward_body (apiUrl : string) (method data headers timeout : value) : value :=
  VObj (list_to_map
    [ ("api_url", VStr apiUrl);
      ("method", default_param (VStr "POST") method);
      ("data", default_param (VObj ∅) data);
      ("headers", default_param (VObj ∅) headers);
      ("timeout", default_param (VNum 30) timeout) ]).

Definition forward_failed : string := "Failed to forward to external API: ".

(** [forwardToExternalApi(apiUrl, method, data, headers, timeout)],
    lines 502-515. *)
Definition forwardToExternalApi {B : Builtins} {P : Platform}
    (apiUrl : string) (method data headers timeout : value) : M World value :=
  try_catch
    (let! response :=
       apiClient_post "/forward" (forward_body apiUrl method data headers timeout) in
     ret (snd response))%js
    (fun error => throw (Error (forward_failed +:+ error_text error))).

(** [sendChatMessage(message, targetModel, targetSchema,
    conversationHistory, currentData)], lines 478-491. *)
Definition sendChatMessage {B : Builtins} {P : Platform}
    (message targetModel targetSchema conversationHistory currentData : value) : M World value :=
  try_catch
    (let! response :=
       apiClient_post "/chat"
         (VObj (list_to_map
            [ ("message", message);
              ("target_model", targetModel);
              ("target_schema", targetSchema);
              ("conversation_history", default_param (VArr []) conversationHistory);
              ("current_data", default_param VNull currentData) ])) in
     ret (snd response))%js
    (fun error => throw (Error ("Failed to process chat: " +:+ error_text error))).

(** The requests that went out through [apiClient], in order. *)
Definition posts (t : list event) : list (string * value) :=
  omap (fun e => match e with EvPost url body => Some (url, body) | _ => None end) t.

(** ** App.js *)

Definition setFormData (v : value) : M World unit :=
  modify (set_app (fun a => AppState (currentView a) v (apiResults a) (loading a))).

Definition setApiResults (v : value) : M World unit :=
  modify (set_app (fun a => AppState (currentView a) (app_formData a) v (loading a))).

Definition setCurrentView (view : string) : M World unit :=
  modify (set_app (fun a => AppState view (app_formData a) (apiResults a) (loading a))).

Definition setLoading (b : bool) : M World unit :=
  modify (set_app (fun a => AppState (currentView a) (app_formData a) (apiResults a) b)).

(** [handleFormSubmit(data)], lines 1250-1266 *)
Definition handleFormSubmit {B : Builtins} {P : Platform} (data : value) : M World unit :=
  try_finally
    (try_catch
       (do! setLoading true in
        let! response :=
          forwardToExternalApi "https://httpbin.org/post" (VStr "POST") data
            VUndefined VUndefined in
        do! setApiResults response in
        setCurrentView "results")%js
       (fun error => Alert_alert "Error" ("Failed to submit form: " +:+ error_message error)))
    (set_app (fun a => AppState (currentView a) (app_formData a) (apiResults a) false)).

(** The [onRetry] prop given to ResultsDisplay, line 1467:
    [() => handleFormSubmit(formData)]. *)
Definition onRetry {B : Builtins} {P : Platform} : M World unit :=
  (let! w := get in handleFormSubmit (app_formData (app w)))%js.

(** [handleChatComplete(completedData)], lines 1268-1275; the button of
    its alert shows the form when it is pressed. *)
Definition handleChatComplete (completedData : value) : M World unit :=
  (do! setFormData completedData in
   Alert_alert "Form Complete"
     "The chat assistant has completed filling out the form. You can review and submit it.")%js.

(** [handleSubmit] of DynamicForm, lines 205-213, with the [onSubmit] that
    App passes. *)
Definition handleSubmit {B : Builtins} {P : Platform} (sch : schema) (st : DynamicForm_state)
  : M World DynamicForm_state :=
  let (st', valid) := validateForm sch st in
  if valid
  then (do! handleFormSubmit (VObj (formData st')) in ret st')%js
  else (do! Alert_alert "Validation Error" "Please fill in all required fields." in ret st')%js.

(** The [formData] that DynamicForm starts from and is reset to, lines
    162-169: the prop [initialData], [{}] when it is [undefined]. The form
    renders when this is an object. *)
Definition DynamicForm_formData (initialData : value) : option ValueMap :=
  match default_param (VObj ∅) initialData with
  | VObj m => Some m
  | _ => None
  end.

(** ** components/ChatInterface.js *)

Definition make_message (role : string) (content : value) (timestamp : string) : value :=
  VObj (list_to_map [ ("role", VStr role); ("content", content); ("timestamp", VStr timestamp) ]).

(** [msg => ({ role: msg.role, content: msg.content, timestamp: msg.timestamp })] *)
Definition history_entry {B : Builtins} (msg : value) : value :=
  VObj (list_to_map
    [ ("role", get_member msg "role");
      ("content", get_member msg "content");
      ("timestamp", get_member msg "timestamp") ]).

Definition new_Date_toISOString {P : Platform} : M World string :=
  fun w => (Return (toISOString (trace w)), w).

Definition add_message (msg : value) : M World unit :=
  modify (set_chat (fun c =>
    ChatState (messages c ++ [msg]) (inputText c) (isLoading c) (conversationId c)
      (followUpQuestions c) (isComplete c))).

Definition setInputText (text : string) : M World unit :=
  modify (set_chat (fun c =>
    ChatState (messages c) text (isLoading c) (conversationId c) (followUpQuestions c)
      (isComplete c))).

Definition setIsLoading (b : bool) (c : Chat_state) : Chat_state :=
  ChatState (messages c) (inputText c) b (conversationId c) (followUpQuestions c) (isComplete c).

Definition set_conversation (id questions complete : value) : M World unit :=
  modify (set_chat (fun c => ChatState (messages c) (inputText c) (isLoading c) id questions complete)).

(** [sendMessage(message)], lines 1751-1817, of a ChatInterface rendered
    with the props [schema], [currentData], [onDataUpdate = setFormData] and
    [onComplete = handleChatComplete] (lines 1455-1460). Once
    [response.message] was read, [response] is neither [null] nor
    [undefined], and the reads that follow do not throw. *)
Definition sendMessage {B : Builtins} {P : Platform} (schema_prop currentData : value) (message : string)
  : M World unit :=
  (let! w := get in
   if String.eqb (trim message) "" || isLoading (chat w) then ret tt else
   let! sent := new_Date_toISOString in
   let userMessage := make_message "user" (VStr message) sent in
   do! add_message userMessage in
   do! setInputText "" in
   do! modify (set_chat (setIsLoading true)) in
   try_finally
     (try_catch
        (let conversationHistory := map history_entry (messages (chat w) ++ [userMessage]) in
         let! model_name := member schema_prop "model_name" in
         let! response :=
           sendChatMessage (VStr message) model_name schema_prop (VArr conversationHistory)
             currentData in
         let! content := member response "message" in
         let! received := new_Date_toISOString in
         do! add_message (make_message "assistant" content received) in
         do! set_conversation (get_member response "conversation_id")
               (js_or (get_member response "follow_up_questions") (VArr []))
               (get_member response "is_complete") in
         do! when (truthy (get_member response "structured_data"))
               (setFormData (get_member response "structured_data")) in
         when (truthy (get_member response "is_complete"))
           (handleChatComplete (get_member response "structured_data")))
        (fun error =>
           let! failed := new_Date_toISOString in
           do! add_message
                 (make_message "assistant"
                    (VStr ("Sorry, I encountered an error: " +:+ error_message error
                           +:+ ". Please try again."))
                    failed) in
           Alert_alert "Error" "Failed to send message. Please try again."))
     (set_chat (setIsLoading false)))%js.

(** The [onPress] of the Clear button of the confirmation that
    [clearConversation] shows, lines 1837-1845. *)
Definition clearConversation_confirmed : M World unit :=
  (do! modify (set_chat (fun c => ChatState [] (inputText c) (isLoading c) VNull (VArr []) (VBool false))) in
   setFormData (VObj ∅))%js.

(** ** config/env.js *)

(** The environment variables the configuration reads, after the run time
    parsed them: [parseFloat] yields a number (NaN when the variable is not
    set), [parseInt] an integer or NaN ([None]). *)
Record process_env : Type :=
  ProcessEnv {
    EXPO_PUBLIC_OPENAI_API_KEY : option string;
    parseFloat_DEFAULT_SPEECH_RATE : float;
    parseFloat_DEFAULT_SPEECH_PITCH : float;
    parseInt_MAX_RECORDING_TIME : option Z
  }.

Class Env : Type := {
  OPENAI_API_KEY : string;
  DEFAULT_SPEECH_RATE : float;
  DEFAULT_SPEECH_PITCH : float;
  (** in milliseconds *)
  MAX_RECORDING_TIME : Z
}.

(** [x || d] on numbers *)
Definition number_or (x d : float) : float := if truthy (VNum x) then x else d.

(** The object [ENV], lines 553-576. *)
Definition ENV (pe : process_env) : Env :=
  {| OPENAI_API_KEY := default "" (EXPO_PUBLIC_OPENAI_API_KEY pe);
     DEFAULT_SPEECH_RATE := number_or (parseFloat_DEFAULT_SPEECH_RATE pe) 1.0;
     DEFAULT_SPEECH_PITCH := number_or (parseFloat_DEFAULT_SPEECH_PITCH pe) 1.0;
     MAX_RECORDING_TIME :=
       match parseInt_MAX_RECORDING_TIME pe with
       | Some n => if (n =? 0)%Z then 60000%Z else n
       | None => 60000%Z
       end |}.

(** [validateConfig()], lines 579-602: the errors it collects; the module
    throws while loading when there is one. [API_BASE_URL] has a default
    that is not empty, so its test never adds an error. *)
Definition validateConfig (E : Env) : list string :=
  (if (DEFAULT_SPEECH_RATE <? 0.1)%float || (2.0 <? DEFAULT_SPEECH_RATE)%float
   then ["DEFAULT_SPEECH_RATE must be between 0.1 and 2.0"] else [])
  ++ (if (DEFAULT_SPEECH_PITCH <? 0.5)%float || (2.0 <? DEFAULT_SPEECH_PITCH)%float
      then ["DEFAULT_SPEECH_PITCH must be between 0.5 and 2.0"] else []).

(** ** services/voiceService.js *)

Definition new_VoiceService {E : Env} : VoiceService_state :=
  VoiceServiceState false false false (VNum DEFAULT_SPEECH_RATE) (VNum DEFAULT_SPEECH_PITCH).

Definition set_recording (rec isRec : bool) : M World unit :=
  modify (set_voice (fun v => VoiceServiceState rec isRec (isPlaying v) (speechRate v) (speechPitch v))).

Definition set_isPlaying (b : bool) : M World unit :=
  modify (set_voice (fun v =>
    VoiceServiceState (recording v) (vs_isRecording v) b (speechRate v) (speechPitch v))).

Definition set_speech (rate pitch : value) : M World unit :=
  modify (set_voice (fun v =>
    VoiceServiceState (recording v) (vs_isRecording v) (isPlaying v) rate pitch)).

(** [Math.min] and [Math.max] of two numbers: NaN when one of them is NaN,
    and [-0] below [+0]. *)
Definition Math_min (x y : float) : float :=
  if is_nan x || is_nan y then nan
  else if (x <? y)%float then x
  else if (y <? x)%float then y
  else if get_sign x then x else y.

Definition Math_max (x y : float) : float :=
  if is_nan x || is_nan y then nan
  else if (x <? y)%float then y
  else if (y <? x)%float then x
  else if get_sign x then y else x.

(** What [JSON.parse(JSON.stringify(v))] makes of a scalar: NaN and the
    infinities become [null], [-0] becomes [0], a function is left out. *)
Definition json_scalar (v : value) : value :=
  match v with
  | VNum x =>
      if is_nan x || is_infinity x then VNull
      else if is_zero x then VNum 0
      else VNum x
  | VBuiltin _ => VUndefined
  | _ => v
  end.

Definition preferences_key : string := "voiceServicePreferences".

(** [saveUserPreferences()], lines 324-334 *)
Definition saveUserPreferences {P : Platform} : M World unit :=
  try_catch
    (let! w := get in
     let preferences : ValueMap :=
       list_to_map [ ("speechRate", json_scalar (speechRate (voice w)));
                     ("speechPitch", json_scalar (speechPitch (voice w))) ] in
     do! platform_call (EvSetItem preferences_key (VObj preferences)) setItem in
     modify (set_storage (fun st => <[preferences_key := VObj preferences]> st)))%js
    (fun _ => ret tt).

(** [loadUserPreferences()], lines 339-350 *)
Definition loadUserPreferences {B : Builtins} {P : Platform} : M World unit :=
  try_catch
    (do! platform_call (EvGetItem preferences_key) getItem in
     let! w := get in
     match storage w !! preferences_key with
     | Some preferences =>
         let! rate := member preferences "speechRate" in
         do! set_speech (js_or rate (VNum 1.0)) (speechPitch (voice w)) in
         let! pitch := member preferences "speechPitch" in
         set_speech (js_or rate (VNum 1.0)) (js_or pitch (VNum 1.0))
     | None => ret tt
     end)%js
    (fun _ => ret tt).

(** [setSpeechRate(rate)] and [setSpeechPitch(pitch)], lines 298-309 *)
Definition setSpeechRate {P : Platform} (rate : float) : M World unit :=
  (let! w := get in
   do! set_speech (VNum (Math_max 0.1 (Math_min 2.0 rate))) (speechPitch (voice w)) in
   saveUserPreferences)%js.

Definition setSpeechPitch {P : Platform} (pitch : float) : M World unit :=
  (let! w := get in
   do! set_speech (speechRate (voice w)) (VNum (Math_max 0.5 (Math_min 2.0 pitch))) in
   saveUserPreferences)%js.

(** [initialize()], lines 47-72 *)
Definition initialize {B : Builtins} {P : Platform} : M World bool :=
  (let! status := platform_ask EvRequestPermissions requestPermissionsAsync in
   if negb (String.eqb status "granted")
   then throw (Error "Audio recording permission denied")
   else
     do! platform_call EvSetAudioMode setAudioModeAsync in
     do! loadUserPreferences in
     ret true)%js.

(** [startRecording()], lines 77-102: [undefined] when already recording,
    [true] once the recorder runs. *)
Definition startRecording {P : Platform} : M World value :=
  try_catch
    (let! w := get in
     if vs_isRecording (voice w) then ret VUndefined else
     do! set_recording true (vs_isRecording (voice w)) in
     do! platform_call EvPrepareToRecord prepareToRecordAsync in
     do! platform_call EvStartRecording startAsync in
     do! set_recording true true in
     ret (VBool true))%js
    (fun error => do! set_recording false false in throw error)%js.

(** [stopRecording()], lines 107-132: the URI of the recorded file, [null]
    ([None]) when there is no recording. *)
Definition stopRecording {P : Platform} : M World (option string) :=
  try_catch
    (let! w := get in
     if negb (vs_isRecording (voice w)) || negb (recording (voice w)) then ret None else
     do! platform_call EvStopRecording stopAndUnloadAsync in
     let! w' := get in
     let uri := getURI (trace w') in
     do! set_recording false false in
     ret uri)%js
    (fun error => do! set_recording false false in throw error)%js.

(** [await FileSystem.deleteAsync(uri, { idempotent: true })]: the file is
    gone when the call resolves. *)
Definition FileSystem_deleteAsync {P : Platform} (uri : string) : M World unit :=
  fun w =>
    match deleteAsync (trace w) uri with
    | None =>
        (Return tt,
         set_files (fun fs => fs ∖ {[uri]}) (set_trace (fun t => t ++ [EvDeleteFile uri true]) w))
    | Some err => (Throw err, set_trace (fun t => t ++ [EvDeleteFile uri false]) w)
    end.

Definition whisper_url : string := "https://api.openai.com/v1/audio/transcriptions".

(** [!audioUri] *)
Definition no_uri (audioUri : option string) : bool :=
  match audioUri with
  | Some uri => String.eqb uri ""
  | None => true
  end.

(** [transcribeAudio(audioUri)], lines 137-201 *)
Definition transcribeAudio {B : Builtins} {E : Env} {P : Platform} (audioUri : option string)
  : M World string :=
  let uri := default "" audioUri in
  try_catch
    (if no_uri audioUri then throw (Error "No audio URI provided") else
     let! audioFile := platform_ask (EvReadFile uri) (fun t => readAsStringAsync t uri) in
     if String.eqb OPENAI_API_KEY ""
     then throw (Error "OpenAI API key not configured. Please set EXPO_PUBLIC_OPENAI_API_KEY in your environment.")
     else
       let! response := platform_ask (EvFetch whisper_url uri) (fun t => fetch t uri) in
       if negb (ok response)
       then throw (Error ("Transcription failed: " +:+ pretty (status response) +:+ " "
                          +:+ statusText response))
       else
         let! transcription := platform_ask EvResponseText response_text in
         do! FileSystem_deleteAsync uri in
         ret (trim transcription))%js
    (fun error =>
       do! when (negb (no_uri audioUri))
             (try_catch (FileSystem_deleteAsync uri) (fun cleanupError => ret tt)) in
       throw error)%js.

(** The [options] of [speak]: the four settings, and which of the four
    callbacks the caller passes. *)
Record speak_options : Type :=
  SpeakOptions {
    opt_rate : value;
    opt_pitch : value;
    opt_language : value;
    opt_voice : value;
    opt_onStart : bool;
    opt_onDone : bool;
    opt_onStopped : bool;
    opt_onError : bool
  }.

(** [!text || text.trim().length === 0] *)
Definition no_text {B : Builtins} (text : string) : bool :=
  String.eqb text "" || Nat.eqb (String.length (trim text)) 0.

(** [speak(text, options)], lines 206-250 *)
Definition utterance (text : string) (options : speak_options) (v : VoiceService_state)
  : event :=
  EvSpeechSpeak text
    (js_or (opt_rate options) (speechRate v))
    (js_or (opt_pitch options) (speechPitch v))
    (js_or (opt_language options) (VStr "en-US"))
    (js_or (opt_voice options) VNull).

Definition speak {B : Builtins} {P : Platform} (text : string) (options : speak_options)
  : M World unit :=
  try_catch
    (if no_text text then ret tt else
     let! w := get in
     do! when (isPlaying (voice w)) (platform_call EvSpeechStop Speech_stop) in
     let! w' := get in
     platform_call (utterance text options (voice w')) Speech_speak)%js
    (fun error => do! set_isPlaying false in throw error)%js.

(** The callbacks that [speak] registers with the speech engine, lines
    225-241; the engine calls them when the utterance starts, is done, is
    stopped, or fails. *)
Definition speech_onStart (options : speak_options) : M World unit :=
  (do! emit (EvSpeechReport "start") in
   do! set_isPlaying true in
   when (opt_onStart options) (call_prop "onStart" VUndefined))%js.

Definition speech_onDone (options : speak_options) : M World unit :=
  (do! emit (EvSpeechReport "done") in
   do! set_isPlaying false in
   when (opt_onDone options) (call_prop "onDone" VUndefined))%js.

Definition speech_onStopped (options : speak_options) : M World unit :=
  (do! emit (EvSpeechReport "stopped") in
   do! set_isPlaying false in
   when (opt_onStopped options) (call_prop "onStopped" VUndefined))%js.

Definition speech_onError (options : speak_options) (error : exn) : M World unit :=
  (do! emit (EvSpeechReport "error") in
   do! set_isPlaying false in
   when (opt_onError options) (call_prop "onError" (VStr (error_message error))))%js.

(** The utterances in progress after the events [t]: those handed to the
    engine by [Speech.speak] whose end (done, stopped or failed) the engine
    has not reported. *)
Definition in_progress_step (n : nat) (e : event) : nat :=
  match e with
  | EvSpeechSpeak _ _ _ _ _ => S n
  | EvSpeechReport what => if String.eqb what "start" then n else pred n
  | _ => n
  end.

Definition in_progress (t : list event) : nat := foldl in_progress_step 0 t.

(** [stopSpeaking()], lines 255-266 *)
Definition stopSpeaking {P : Platform} : M World unit :=
  try_catch
    (let! w := get in
     when (isPlaying (voice w))
       (do! platform_call EvSpeechStop Speech_stop in set_isPlaying false))%js
    (fun error => set_isPlaying false).

(** [getRecordingDuration()], lines 369-380 *)
Definition getRecordingDuration {B : Builtins} {P : Platform} : M World value :=
  try_catch
    (let! w := get in
     if recording (voice w) && vs_isRecording (voice w)
     then
       let! status := platform_ask EvGetStatus getStatusAsync in
       let! durationMillis := member status "durationMillis" in
       ret (js_or durationMillis (VNum 0))
     else ret (VNum 0))%js
    (fun error => ret (VNum 0)).

(** [cleanup()], lines 385-399 *)
Definition cleanup {P : Platform} : M World unit :=
  try_catch
    (do! stopSpeaking in
     let! w := get in
     when (vs_isRecording (voice w)) (do! stopRecording in ret tt))%js
    (fun error => ret tt).

(** ** components/VoiceButton.js *)

(** The props of VoiceButton that its handlers read: whether
    [onTranscription] and [onError] are passed, [disabled], and
    [maxRecordingTime] in milliseconds ([None] when the parent passes none). *)
Record VoiceButton_props : Type :=
  VoiceButtonProps {
    onTranscription : bool;
    onError : bool;
    disabled : bool;
    maxRecordingTime_prop : option Z
  }.

(** [maxRecordingTime = ENV.MAX_RECORDING_TIME], the default of the prop,
    line 460. *)
Definition maxRecordingTime {E : Env} (props : VoiceButton_props) : Z :=
  default MAX_RECORDING_TIME (maxRecordingTime_prop props).

Definition set_timers (duration : bool) (maxTime : option Z) : M World unit :=
  modify (set_button (fun b =>
    VoiceButtonState (vb_isRecording b) (isTranscribing b) (recordingDuration b)
      (isInitialized b) duration maxTime)).

Definition setRecordingDuration (d : value) : M World unit :=
  modify (set_button (fun b =>
    VoiceButtonState (vb_isRecording b) (isTranscribing b) d (isInitialized b)
      (durationTimer b) (maxTimeTimer b))).

Definition setIsTranscribing (t : bool) : M World unit :=
  modify (set_button (fun b =>
    VoiceButtonState (vb_isRecording b) t (recordingDuration b) (isInitialized b)
      (durationTimer b) (maxTimeTimer b))).

Definition setIsInitialized (i : bool) : M World unit :=
  modify (set_button (fun b =>
    VoiceButtonState (vb_isRecording b) (isTranscribing b) (recordingDuration b) i
      (durationTimer b) (maxTimeTimer b))).

(** [setTimeout(f, delay)] fires [delay] milliseconds from now, at once
    when [delay] is not positive. *)
Definition setTimeout_due (current delay : Z) : Z := (current + Z.max 0 delay)%Z.

(** The effect on [isRecording], lines 486-495, with [startDurationTimer]
    (563-573), [startMaxTimeTimer] (575-583) and [clearTimers] (585-594). *)
Definition isRecording_effect {E : Env} (props : VoiceButton_props) (isRec : bool) : M World unit :=
  if isRec
  then
    (do! setRecordingDuration (VNum 0) in
     let! w := get in
     set_timers true (Some (setTimeout_due (now w) (maxRecordingTime props))))%js
  else set_timers false None.

(** [setIsRecording(b)]: the effect runs when the state changes. *)
Definition setIsRecording {E : Env} (props : VoiceButton_props) (b : bool) : M World unit :=
  (let! w := get in
   do! modify (set_button (fun s =>
         VoiceButtonState b (isTranscribing s) (recordingDuration s) (isInitialized s)
           (durationTimer s) (maxTimeTimer s))) in
   when (negb (Bool.eqb b (vb_isRecording (button w)))) (isRecording_effect props b))%js.

(** [initializeVoiceService()], lines 497-507 *)
Definition initializeVoiceService {B : Builtins} {P : Platform} (props : VoiceButton_props)
  : M World unit :=
  try_catch
    (do! initialize in setIsInitialized true)%js
    (fun error =>
       when (onError props)
         (call_prop "onError"
            (VStr "Failed to initialize voice recording. Please check microphone permissions."))).

(** [handleStartRecording()], lines 596-611 *)
Definition handleStartRecording {E : Env} {P : Platform} (props : VoiceButton_props) : M World unit :=
  (let! w := get in
   if negb (isInitialized (button w))
   then Alert_alert "Error" "Voice service not initialized. Please try again."
   else
     try_catch
       (do! startRecording in setIsRecording props true)
       (fun error =>
          when (onError props)
            (call_prop "onError"
               (VStr "Failed to start recording. Please check microphone permissions."))))%js.

(** [handleStopRecording()], lines 613-644; [isRec] is the [isRecording]
    of the render whose closure runs. *)
Definition handleStopRecording {B : Builtins} {E : Env} {P : Platform} (props : VoiceButton_props)
    (isRec : bool) : M World unit :=
  if negb isRec then ret tt else
  try_finally
    (try_catch
       (do! setIsTranscribing true in
        let! audioUri := stopRecording in
        do! setIsRecording props false in
        if no_uri audioUri then ret tt else
        let! transcription := transcribeAudio audioUri in
        if negb (String.eqb transcription "") && (0 <? String.length (trim transcription))%nat
        then when (onTranscription props) (call_prop "onTranscription" (VStr transcription))
        else Alert_alert "No Speech Detected" "Please try speaking more clearly.")%js
       (fun error =>
          when (onError props)
            (call_prop "onError" (VStr "Failed to process voice input. Please try again."))))
    (set_button (fun b =>
       VoiceButtonState (vb_isRecording b) false (VNum 0) (isInitialized b)
         (durationTimer b) (maxTimeTimer b))).

(** [handlePress()], lines 646-654 *)
Definition handlePress {B : Builtins} {E : Env} {P : Platform} (props : VoiceButton_props) : M World unit :=
  (let! w := get in
   if disabled props || isTranscribing (button w) then ret tt
   else if vb_isRecording (button w)
   then handleStopRecording props true
   else handleStartRecording props)%js.

(** The callback of the timeout of [startMaxTimeTimer], lines 576-582. It
    was created by the render in which [isRecording] is [true]. The alert is
    shown while [handleStopRecording] awaits; here it follows it. *)
Definition maxTimeTimer_callback {B : Builtins} {E : Env} {P : Platform} (props : VoiceButton_props)
  : M World unit :=
  (do! handleStopRecording props true in
   Alert_alert "Recording Limit Reached"
     ("Maximum recording time of " +:+ show_seconds (maxRecordingTime props)
      +:+ " seconds reached."))%js.

(** The callback of the interval of [startDurationTimer], lines 565-572 *)
Definition durationTimer_callback {B : Builtins} {P : Platform} : M World unit :=
  try_catch
    (let! duration := getRecordingDuration in setRecordingDuration duration)%js
    (fun error => ret tt).

(** What happens to a mounted VoiceButton: the user presses it, the
    interval ticks, or [dt] milliseconds pass. When time passes, a pending
    timeout that is due fires, once. A handler runs to its end within a
    step: what another input does while a handler awaits is not part of a
    run. *)
Inductive button_input : Type :=
  | Press
  | DurationTick
  | Elapse (dt : Z).

Definition button_step {B : Builtins} {E : Env} {P : Platform} (props : VoiceButton_props)
    (i : button_input) : M World unit :=
  match i with
  | Press => handlePress props
  | DurationTick =>
      (let! w := get in when (durationTimer (button w)) durationTimer_callback)%js
  | Elapse dt =>
      (do! modify (set_now (fun t => t + Z.max 0 dt)%Z) in
       let! w := get in
       match maxTimeTimer (button w) with
       | Some due =>
           if (due <=? now w)%Z
           then
             do! set_timers (durationTimer (button w)) None in
             maxTimeTimer_callback props
           else ret tt
       | None => ret tt
       end)%js
  end.

(** The time that passes during a run of inputs. *)
Fixpoint total_elapsed (inputs : list button_input) : Z :=
  match inputs with
  | [] => 0
  | Elapse dt :: rest => Z.max 0 dt + total_elapsed rest
  | _ :: rest => total_elapsed rest
  end.

Definition is_press (i : button_input) : bool :=
  match i with
  | Press => true
  | _ => false
  end.

(** The alert of the timeout of [startMaxTimeTimer]. *)
Definition limit_alert {B : Builtins} {E : Env} (props : VoiceButton_props) : event :=
  EvAlert "Recording Limit Reached"
    ("Maximum recording time of " +:+ show_seconds (maxRecordingTime props)
     +:+ " seconds reached.").

(** A run of inputs; no handler of the button lets an exception escape,
    so a run goes on after each of them. *)
Fixpoint button_run {B : Builtins} {E : Env} {P : Platform} (props : VoiceButton_props)
    (inputs : list button_input) (w : World) : World :=
  match inputs with
  | [] => w
  | i :: rest => button_run props rest (snd (button_step props i w))
  end.

(** ** More of the front end

    Functions that the properties of the second part of the file are about:
    the custom model of App, the size classes of the theme, the screens of
    ResultsDisplay and the displayed duration of the voice button. *)

(** *** services/api.js and App.js: loading a model *)

(** [parseSchema(modelDefinition, modelName)], lines 457-467 of
    services/voiceService.js. *)
Definition parseSchema {B : Builtins} {P : Platform} (modelDefinition modelName : value)
  : M World value :=
  try_catch
    (let! response :=
       apiClient_post "/parse-schema"
         (VObj (list_to_map
            [ ("model_definition", modelDefinition);
              ("model_name", modelName) ])) in
     ret (snd response))%js
    (fun error => throw (Error ("Failed to parse schema: " +:+ error_text error))).

(** The state of App that belongs to the choice of a model: the schema,
    and the modal in which the user types a model of their own. *)
Record Model_state : Type :=
  ModelState {
    app_schema : value;
    modalVisible : bool;
    customModel : string;
    modelName : string
  }.

(** [loadCustomModel()], lines 1227-1248 of frontend/.env.example. *)
Definition loadCustomModel {B : Builtins} {P : Platform} (m : Model_state)
  : M World Model_state :=
  if String.eqb (trim (customModel m)) "" || String.eqb (trim (modelName m)) ""
  then
    (do! Alert_alert "Error" "Please provide both model definition and name" in ret m)%js
  else
    try_finally
      (try_catch
         (do! setLoading true in
          let! response := parseSchema (VStr (customModel m)) (VStr (modelName m)) in
          let! schema_data := member response "schema_data" in
          do! setFormData (VObj ∅) in
          do! setApiResults VNull in
          do! setCurrentView "form" in
          ret (ModelState schema_data false "" ""))%js
         (fun error =>
            do! Alert_alert "Error" ("Failed to parse custom model: " +:+ error_message error) in
            ret m)%js)
      (set_app (fun a => AppState (currentView a) (app_formData a) (apiResults a) false)).

(** *** styles/theme.js *)

(** [breakpoints], lines 39-44 of frontend/.env.example. *)
Definition breakpoints_small : float := 360.
Definition breakpoints_medium : float := 768.
Definition breakpoints_large : float := 1024.

(** [deviceType], lines 47-54 of frontend/.env.example, for the width
    [screenWidth] of the window. *)
Record DeviceType : Type :=
  MkDeviceType {
    isSmall : bool;
    isMedium : bool;
    isLarge : bool;
    isXLarge : bool;
    isTablet : bool;
    isDesktop : bool
  }.

(** [a >= b] is [b <= a]; a comparison with NaN is false. *)
Definition deviceType (screenWidth : float) : DeviceType :=
  {| isSmall := (screenWidth <? breakpoints_small)%float;
     isMedium := (breakpoints_small <=? screenWidth)%float
                 && (screenWidth <? breakpoints_medium)%float;
     isLarge := (breakpoints_medium <=? screenWidth)%float
                && (screenWidth <? breakpoints_large)%float;
     isXLarge := (breakpoints_large <=? screenWidth)%float;
     isTablet := (breakpoints_medium <=? screenWidth)%float;
     isDesktop := (breakpoints_large <=? screenWidth)%float |}.

(** [typeof v === 'object' && v !== null] *)
Definition is_object (v : value) : bool :=
  match v with
  | VObj _ | VArr _ => true
  | _ => false
  end.

(** [v !== undefined] *)
Definition defined (v : value) : bool :=
  match v with
  | VUndefined => false
  | _ => true
  end.

(** [responsive.getValue(values)], lines 414-424, on a device of type [d]. *)
Definition getValue {B : Builtins} (d : DeviceType) (values : value) : value :=
  if is_object values
  then
    if isXLarge d && defined (get_member values "xlarge") then get_member values "xlarge"
    else if isLarge d && defined (get_member values "large") then get_member values "large"
    else if isMedium d && defined (get_member values "medium") then get_member values "medium"
    else if isSmall d && defined (get_member values "small") then get_member values "small"
    else js_or (get_member values "default") values
  else values.

(** *** components/ResultsDisplay.js *)

(** What ResultsDisplay renders, lines 175-204: the loading indicator,
    the error with or without the Retry button, the text [No results to
    display], or the results. *)
Inductive ResultsDisplay_screen : Type :=
  | LoadingScreen
  | ErrorScreen (retry : bool)
  | EmptyScreen
  | ResultsScreen.

(** [ResultsDisplay({ results, loading = false, error = null, onRetry =
    null })], lines 154-160; [onRetry] holds whether the prop is truthy. *)
Definition ResultsDisplay (results loading error : value) (onRetry : bool)
  : ResultsDisplay_screen :=
  if truthy (default_param (VBool false) loading) then LoadingScreen
  else if truthy (default_param VNull error) then ErrorScreen onRetry
  else if negb (truthy results) then EmptyScreen
  else ResultsScreen.

(** What App renders in the place of the results, lines 1463-1469:
    [currentView === 'results' && apiResults && <ResultsDisplay
    results={apiResults} loading={loading} onRetry={...} />]. *)
Definition App_results (a : App_state) : option ResultsDisplay_screen :=
  if String.eqb (currentView a) "results" && truthy (apiResults a)
  then Some (ResultsDisplay (apiResults a) (VBool (loading a)) VUndefined true)
  else None.

(** *** components/VoiceButton.js: the displayed duration *)

(** [s.padStart(2, '0')] *)
Definition padStart_2_0 (s : string) : string :=
  match String.length s with
  | 0 => "00"
  | 1 => "0" +:+ s
  | _ => s
  end.

(** [formatDuration(milliseconds)], lines 656-665 of unnamed/part_001, for a
    whole number of milliseconds: [Math.floor] of a quotient is the floor
    division, [%] is the remainder that has the sign of the dividend. *)
Definition formatDuration (milliseconds : Z) : string :=
  let seconds := (milliseconds / 1000)%Z in
  let minutes := (seconds / 60)%Z in
  let remainingSeconds := Z.rem seconds 60 in
  if (0 <? minutes)%Z
  then pretty minutes +:+ ":" +:+ padStart_2_0 (pretty remainingSeconds)
  else pretty remainingSeconds +:+ "s".

(** ** Run times and platforms for the examples *)

Fixpoint trim_left (s : string) : string :=
  match s with
  | String c s' => if Ascii.is_space c then trim_left s' else s
  | EmptyString => EmptyString
  end.

(** A run time that answers as JavaScript does on what the examples ask:
    [trim] on strings whose white space is ASCII, the conversion to a string
    of [undefined], [null], the booleans and plain objects, and whole numbers
    of seconds. *)
Definition example_builtins : Builtins :=
  {| prim_member := fun _ _ => VUndefined;
     ToString := fun v =>
       match v with
       | VUndefined => "undefined"
       | VNull => "null"
       | VBool true => "true"
       | VBool false => "false"
       | VObj _ => "[object Object]"
       | _ => ""
       end;
     trim := fun s => String.rev (trim_left (String.rev (trim_left s)));
     show_seconds := fun ms => pretty (ms / 1000)%Z |}.

(** A platform on which the server answers every request with [answer],
    reading a file is answered by [read], deleting one by [delete], and
    every other call succeeds. *)
Definition example_platform (answer : http_outcome) (read : outcome string)
    (delete : option exn) : Platform :=
  {| http := fun _ _ _ => answer;
     readAsStringAsync := fun _ _ => read;
     deleteAsync := fun _ _ => delete;
     fetch := fun _ _ => Return (FetchResponse true 200 "OK");
     response_text := fun _ => Return "hello";
     Speech_stop := fun _ => None;
     Speech_speak := fun _ => None;
     prepareToRecordAsync := fun _ => None;
     startAsync := fun _ => None;
     stopAndUnloadAsync := fun _ => None;
     getURI := fun _ => Some "file:///recording.m4a";
     getStatusAsync := fun _ => Return (VObj ∅);
     requestPermissionsAsync := fun _ => Return "granted";
     setAudioModeAsync := fun _ => None;
     setItem := fun _ => None;
     getItem := fun _ => None;
     toISOString := fun _ => "2025-01-01T00:00:00.000Z" |}.

Definition example_env : Env :=
  ENV (ProcessEnv (Some "sk-test") nan nan None).

(** The world when the application starts: nothing has happened, App shows
    the home view with an empty ValueMap, the chat is empty and the voice
    button is initialized. *)
Definition initial_world {E : Env} : World :=
  MkWorld [] ∅ ∅ 0 new_VoiceService
    (AppState "home" (VObj ∅) VNull false)
    (ChatState [] "" false VNull (VArr []) (VBool false))
    (VoiceButtonState false false (VNum 0) true false None).

(** Schemas and states of the form for the examples. *)
Definition text_field (k : string) (req : bool) : field :=
  Field k "string" req None None None.

Definition boolean_field (k : string) (req : bool) : field :=
  Field k "boolean" req None None None.

Definition one_field_schema : schema :=
  Schema None None (Some [text_field "name" true]).

Definition address_schema : schema :=
  Schema None None
    (Some [Field "address" "object" true None None (Some [text_field "city" true])]).

Definition flag_schema : schema :=
  Schema None None (Some [boolean_field "is_active" true]).

Definition settings_schema : schema :=
  Schema None None
    (Some [Field "settings" "object" true None None (Some [boolean_field "notify" true])]).

Definition proto_schema : schema :=
  Schema None None (Some [text_field "__proto__" true]).

Definition toString_schema : schema :=
  Schema None None (Some [text_field "toString" true]).

Definition empty_form : DynamicForm_state := DynamicFormState ∅ ∅.

Definition form_of (data : ValueMap) : DynamicForm_state := DynamicFormState data ∅.

(** A chat turn for the examples: App holds [{a: 1, b: 2}] and the
    collaborator answers with the partial update [{b: 3}]. *)
Definition ab_world : World :=
  set_app (fun a => AppState "chat" (VObj {[ "a" := VNum 1; "b" := VNum 2 ]}) VNull false)
    (initial_world (E := example_env)).

Definition b_reply : value :=
  VObj (list_to_map
    [ ("message", VStr "Noted.");
      ("conversation_id", VStr "c-1");
      ("structured_data", VObj {[ "b" := VNum 3 ]});
      ("is_complete", VBool false);
      ("follow_up_questions", VArr []) ]).

Definition user_schema : value :=
  VObj {[ "model_name" := VStr "UserProfile" ]}.

(** Worlds and options for the voice examples. *)
Definition recording_uri : string := "file:///recording.m4a".

Definition recorded_world : World :=
  set_files (fun _ => {[ recording_uri ]}) (initial_world (E := example_env)).

Definition no_options : speak_options :=
  SpeakOptions VUndefined VUndefined VUndefined VUndefined false false false false.

(** A voice button for the examples: both callbacks are passed, the button
    is enabled, and the parent passes no [maxRecordingTime]. *)
Definition default_props : VoiceButton_props := VoiceButtonProps true true false None.

(** The ranges that the comments of [setSpeechRate] and [setSpeechPitch]
    give. *)
Definition rate_in_range (v : value) : bool :=
  match v with
  | VNum x => (0.1 <=? x)%float && (x <=? 2.0)%float
  | _ => false
  end.

Definition pitch_in_range (v : value) : bool :=
  match v with
  | VNum x => (0.5 <=? x)%float && (x <=? 2.0)%float
  | _ => false
  end.

(** The calls that change the speech settings of the service. *)
Inductive settings_call : Type :=
  | SetSpeechRate (rate : float)
  | SetSpeechPitch (pitch : float)
  | LoadUserPreferences.

Definition settings_step {B : Builtins} {P : Platform} (c : settings_call) : M World unit :=
  match c with
  | SetSpeechRate rate => setSpeechRate rate
  | SetSpeechPitch pitch => setSpeechPitch pitch
  | LoadUserPreferences => loadUserPreferences
  end.

Definition settings_run {B : Builtins} {P : Platform} (calls : list settings_call) (w : World)
  : World :=
  foldl (fun w c => snd (settings_step c w)) w calls.

(** The argument of the call is not NaN. *)
Definition not_NaN (c : settings_call) : bool :=
  match c with
  | SetSpeechRate x | SetSpeechPitch x => negb (is_nan x)
  | LoadUserPreferences => true
  end.

(** The preferences in the storage, when there are some, hold a rate and a
    pitch in range. *)
Definition stored_in_range (w : World) : Prop :=
  match storage w !! preferences_key with
  | Some preferences =>
      exists o, preferences = VObj o
                /\ rate_in_range (obj_get o "speechRate") = true
                /\ pitch_in_range (obj_get o "speechPitch") = true
  | None => True
  end.

Definition settings_in_range (w : World) : Prop :=
  rate_in_range (speechRate (voice w)) = true
  /\ pitch_in_range (speechPitch (voice w)) = true
  /\ stored_in_range w.

(** ** Predicates and relations of the statements *)

(** A computation respects a relation between the world it starts in and
    the world it leaves. *)
Definition respects (R : relation World) {A} (c : M World A) : Prop :=
  forall w, R w (snd (c w)).

(** A computation started where [Pre] holds leaves a world where [Q] holds. *)
Definition establishes (Pre Q : World -> Prop) {A} (c : M World A) : Prop :=
  forall w, Pre w -> Q (snd (c w)).

(** The relation between a world and a later one in which no recording was
    started and no timeout was set: the trace has grown, a recording that
    was stopped is still stopped, and no timeout is pending if none was. *)
Definition later (w w' : World) : Prop :=
  trace w `prefix_of` trace w'
  /\ (vs_isRecording (voice w) = false -> vs_isRecording (voice w') = false)
  /\ (maxTimeTimer (button w) = None -> maxTimeTimer (button w') = None).

(** The relation between a world and a later one in which the recording,
    the pending timeout and the time are the same. *)
Definition same_recording (w w' : World) : Prop :=
  voice w' = voice w
  /\ maxTimeTimer (button w') = maxTimeTimer (button w)
  /\ now w' = now w.

(** The service records. *)
Definition records (w : World) : Prop :=
  vs_isRecording (voice w) = true /\ recording (voice w) = true.

(** The service does not record and the recorder was asked to stop. *)
Definition asked_to_stop (w : World) : Prop :=
  vs_isRecording (voice w) = false /\ EvStopRecording ∈ trace w.

(** A timeout is pending while the service records. *)
Definition armed (due : Z) (w : World) : Prop :=
  vs_isRecording (voice w) = true
  /\ recording (voice w) = true
  /\ maxTimeTimer (button w) = Some due
  /\ (now w < due)%Z.

(** The state that the callback of the timeout leaves: the service does
    not record, no timeout is pending, the recorder was asked to stop and the
    alert was shown. *)
Definition stopped_at_limit {B : Builtins} {E : Env} (props : VoiceButton_props) (w : World)
  : Prop :=
  vs_isRecording (voice w) = false
  /\ maxTimeTimer (button w) = None
  /\ EvStopRecording ∈ trace w
  /\ limit_alert props ∈ trace w.

(** A run in which the user does not press the button. *)
Definition no_press (inputs : list button_input) : bool :=
  forallb (fun i => negb (is_press i)) inputs.

(** ** Functions and predicates of the further statements *)

(** The body of the request of [sendChatMessage], lines 480-486. *)
Definition chat_body (message targetModel targetSchema conversationHistory currentData : value)
  : value :=
  VObj (list_to_map
    [ ("message", message);
      ("target_model", targetModel);
      ("target_schema", targetSchema);
      ("conversation_history", default_param (VArr []) conversationHistory);
      ("current_data", default_param VNull currentData) ]).

(** What a method of ApiService that posts makes of the answer of the
    server: it returns the body of a 2xx answer, and throws an [Error] whose
    message is its own prefix followed by [error.response?.data?.detail ||
    error.message] otherwise (lines 465-467, 488-490 and 512-514). *)
Definition api_outcome {B : Builtins} (failed : string) (answer : http_outcome) : outcome value :=
  match answer with
  | HttpResponse st d =>
      if (200 <=? st)%Z && (st <? 300)%Z then Return d
      else Throw (Error (failed +:+
                    template (js_or (get_member d "detail")
                                (VStr ("Request failed with status code " +:+ pretty st)))))
  | NetworkError m => Throw (Error (failed +:+ m))
  end.

(** The body that [handleFormSubmit] forwards. *)
Definition submit_body (data : value) : value :=
  forward_body "https://httpbin.org/post" (VStr "POST") data VUndefined VUndefined.

(** [!message.trim() || isLoading], line 1752. *)
Definition sendMessage_skips {B : Builtins} (message : string) (w : World) : bool :=
  String.eqb (trim message) "" || isLoading (chat w).

(** The message of the user that [sendMessage] adds, lines 1755-1759. *)
Definition user_message {P : Platform} (message : string) (w : World) : value :=
  make_message "user" (VStr message) (toISOString (trace w)).

(** [v] is [null] or [undefined]. *)
Definition nullish (v : value) : bool :=
  match v with
  | VUndefined | VNull => true
  | _ => false
  end.

(** The request of a turn of the chat, lines 1774-1780. *)
Definition turn_body {B : Builtins} {P : Platform} (schema_prop currentData : value)
    (message : string) (w : World) : value :=
  chat_body (VStr message) (get_member schema_prop "model_name") schema_prop
    (VArr (map history_entry (messages (chat w) ++ [user_message message w])))
    currentData.

(** The service holds a recording that runs. *)
Definition is_recording (w : World) : bool :=
  vs_isRecording (voice w) && recording (voice w).

(** The error of [transcribeAudio] when no API key is configured, line 163. *)
Definition key_missing : exn :=
  Error "OpenAI API key not configured. Please set EXPO_PUBLIC_OPENAI_API_KEY in your environment.".

(** The number that [Math.max(lo, Math.min(2.0, x))] is when [x] is not
    NaN. *)
Definition clamped (lo x : float) : float :=
  (if 2.0 <? x then 2.0 else if lo <? x then x else lo)%float.

(** The number of size classes that hold. *)
Definition size_classes (d : DeviceType) : nat :=
  Nat.b2n (isSmall d) + Nat.b2n (isMedium d) + Nat.b2n (isLarge d) + Nat.b2n (isXLarge d).

(** The characters of a string are decimal digits. *)
Fixpoint all_digits (s : string) : bool :=
  match s with
  | EmptyString => true
  | String c s' => bool_decide (is_Some (Ascii.is_nat c)) && all_digits s'
  end.

(** The last character of a string. *)
Fixpoint last_char (s : string) : option Ascii.ascii :=
  match s with
  | EmptyString => None
  | String c EmptyString => Some c
  | String _ s' => last_char s'
  end.

(** The two characters that stand for a number of seconds below 60. *)
Definition two_digits (s : string) : option nat :=
  match s with
  | String c1 (String c2 EmptyString) =>
      match Ascii.is_nat c1, Ascii.is_nat c2 with
      | Some a, Some b => Some (10 * a + b)
      | _, _ => None
      end
  | _ => None
  end.

(** The body of the request of [loadCustomModel], line 1235. *)
Definition parse_body (m : Model_state) : value :=
  VObj (list_to_map
    [ ("model_definition", VStr (customModel m));
      ("model_name", VStr (modelName m)) ]).


(** * Properties *)

(** ** The form: writes, reads and validation *)

Section Form.
Context {B : Builtins}.

Lemma FormField_edit_nested_write {A} (rest : list string) :
  forall (k : string) (v : value) (onChange : string -> value -> A) (leaf : value),
    FormField_edit k rest v onChange leaf = onChange k (nested_write v rest leaf).
Proof.
  induction rest as [|k' rest IH]; intros k v onChange leaf; simpl.
  - reflexivity.
  - rewrite IH. reflexivity.
Qed.

Lemma obj_get_insert_eq (o : ValueMap) (k : string) (v : value) :
  obj_get (<[k := v]> o) k = v.
Proof. unfold obj_get. by rewrite lookup_insert_eq. Qed.

Lemma obj_get_insert_ne (o : ValueMap) (k k' : string) (v : value) :
  k ≠ k' -> obj_get (<[k := v]> o) k' = obj_get o k'.
Proof. intros Hne. unfold obj_get. by rewrite lookup_insert_ne. Qed.

Lemma FormField_value_nested_write (rest : list string) :
  forall (v leaf : value), FormField_value (nested_write v rest leaf) rest = leaf.
Proof.
  induction rest as [|k' rest IH]; intros v leaf; simpl.
  - reflexivity.
  - rewrite obj_get_insert_eq. apply IH.
Qed.

Lemma setField_formData (st : DynamicForm_state) (k : string) (rest : list string) (leaf : value) :
  formData (setField st k rest leaf)
  = <[k := nested_write (obj_get (formData st) k) rest leaf]> (formData st).
Proof. unfold setField. rewrite FormField_edit_nested_write. reflexivity. Qed.

(** C4. For every state of the form, every path [k :: rest] (of length one
    for a top-level field, longer for a field below nested objects) and
    every value (a string, a number, a boolean, an object or any other),
    reading the path right after [setField] wrote it returns exactly the
    value written. *)
Theorem setField_then_readField (st : DynamicForm_state) (k : string) (rest : list string)
    (leaf : value) :
  readField (setField st k rest leaf) k rest = leaf.
Proof.
  unfold readField. rewrite setField_formData, obj_get_insert_eq.
  apply FormField_value_nested_write.
Qed.

(** A write below a nested field keeps the siblings of every level. *)
Lemma setField_nested_frame (st : DynamicForm_state) (k k' sibling : string) (leaf : value)
    (o : ValueMap) :
  formData st !! k = Some (VObj o) ->
  sibling ≠ k' ->
  readField (setField st k [k'] leaf) k [sibling] = readField st k [sibling].
Proof.
  intros Hk Hne.
  assert (obj_get (formData st) k = VObj o) as Hg by (unfold obj_get; by rewrite Hk).
  unfold readField. rewrite setField_formData, obj_get_insert_eq, Hg. simpl.
  by apply obj_get_insert_ne.
Qed.

End Form.

(** A boolean written at a top-level path and a string written two levels
    down, read back. *)
Example setField_examples :
  readField (B := example_builtins)
    (setField (B := example_builtins) empty_form "is_active" [] (VBool false)) "is_active" []
  = VBool false
  /\ formData (setField (B := example_builtins) empty_form "address" ["geo"; "city"] (VStr "Oslo"))
     = {[ "address" := VObj {[ "geo" := VObj {[ "city" := VStr "Oslo" ]} ]} ]}.
Proof. vm_compute. split; reflexivity. Qed.

(** *** validateForm *)

(** The test of line 196 is the falsiness of the value read: the
    comparison with [''] adds nothing. *)
Lemma field_fails_falsy (data : ValueMap) (f : field) :
  field_fails data f = required f && negb (truthy (obj_get data (name f))).
Proof.
  unfold field_fails. destruct (required f); simpl; [|reflexivity].
  destruct (obj_get data (name f)) as [| |b|x|s|l|o|m]; simpl; try reflexivity.
  - by destruct b.
  - by destruct (negb (is_zero x || is_nan x)).
  - by destruct (String.eqb s "").
Qed.

(** The errors after the loop: a key other than [__proto__] carries its
    message when some field of that name fails the test, and every other key
    is as before the loop. *)
Lemma validate_loop_lookup (data : ValueMap) (fs : list field) :
  forall (errors : ValueMap) (k : string),
    foldl (validate_step data) errors fs !! k
    = if existsb (fun f => bool_decide (name f = k) && field_fails data f) fs
         && negb (String.eqb k "__proto__")
      then Some (VStr (k +:+ " is required"))
      else errors !! k.
Proof.
  induction fs as [|f fs IH]; intros errors k; simpl.
  { by destruct (negb (String.eqb k "__proto__")). }
  rewrite IH. unfold validate_step.
  destruct (String.eqb k "__proto__") eqn:Hp; simpl.
  - rewrite !andb_false_r. apply String.eqb_eq in Hp. subst k.
    destruct (field_fails data f); [|reflexivity].
    destruct (String.eqb (name f) "__proto__") eqn:Hf; [reflexivity|].
    apply String.eqb_neq in Hf. by rewrite lookup_insert_ne.
  - rewrite !andb_true_r.
    destruct (existsb _ fs); [by rewrite orb_true_r|]. rewrite orb_false_r.
    case_bool_decide as Hk; simpl.
    + subst k. rewrite Hp.
      destruct (field_fails data f); [by rewrite lookup_insert_eq | reflexivity].
    + destruct (field_fails data f); [|reflexivity].
      destruct (String.eqb (name f) "__proto__"); [reflexivity|].
      by rewrite lookup_insert_ne.
Qed.

Lemma validation_errors_lookup (sch : schema) (data : ValueMap) (k : string) :
  validation_errors sch data !! k
  = if existsb (fun f => bool_decide (name f = k) && field_fails data f) (default [] (fields sch))
       && negb (String.eqb k "__proto__")
    then Some (VStr (k +:+ " is required"))
    else None.
Proof.
  unfold validation_errors. destruct (fields sch) as [fs|]; simpl.
  - by rewrite validate_loop_lookup, lookup_empty.
  - by rewrite lookup_empty.
Qed.

(** Only the fields of [schema.fields] are looked at: a key is reported
    exactly when it is not [__proto__] and a top-level field of that name is
    required and the value read under it is falsy. *)
Lemma validation_errors_dom (sch : schema) (data : ValueMap) (k : string) :
  k ∈ dom (validation_errors sch data)
  <-> k ≠ "__proto__"
      /\ exists f, f ∈ default [] (fields sch) /\ name f = k /\ required f = true
                   /\ truthy (obj_get data k) = false.
Proof.
  rewrite elem_of_dom, validation_errors_lookup. split.
  - destruct (existsb _ _) eqn:E; [|by intros [? ?]].
    destruct (String.eqb k "__proto__") eqn:Hp; [by intros [? ?]|]. intros _.
    apply String.eqb_neq in Hp. split; [exact Hp|].
    apply existsb_exists in E as (f & Hin & Hf).
    apply andb_true_iff in Hf as [Hk Hf]. apply bool_decide_eq_true in Hk.
    rewrite field_fails_falsy in Hf. apply andb_true_iff in Hf as [Hr Ht].
    exists f. subst k. repeat split; [by apply list_elem_of_In | done | by apply negb_true_iff].
  - intros (Hp & f & Hin & Hk & Hr & Ht). apply String.eqb_neq in Hp. rewrite Hp.
    assert (existsb (fun f => bool_decide (name f = k) && field_fails data f)
              (default [] (fields sch)) = true) as ->; [|by eexists].
    apply existsb_exists. exists f. split; [by apply list_elem_of_In|].
    rewrite field_fails_falsy, Hk, Hr, Ht. simpl. by rewrite bool_decide_eq_true_2.
Qed.

Lemma validateForm_true (sch : schema) (st : DynamicForm_state) :
  snd (validateForm sch st) = true <-> validation_errors sch (formData st) = ∅.
Proof.
  unfold validateForm. simpl. rewrite bool_decide_eq_true. apply map_size_empty_iff.
Qed.

(** A required field below a nested field that stores [false], and a
    required top-level field named [__proto__] that stores the empty string,
    are not reported: in both forms [validateForm] records nothing and
    answers [true]. *)
Lemma validateForm_falsy_not_reported :
  (readField (B := example_builtins)
     (form_of {[ "settings" := VObj {[ "notify" := VBool false ]} ]}) "settings" ["notify"]
   = VBool false
   /\ validation_errors settings_schema {[ "settings" := VObj {[ "notify" := VBool false ]} ]} = ∅
   /\ snd (validateForm settings_schema
             (form_of {[ "settings" := VObj {[ "notify" := VBool false ]} ]})) = true)
  /\ (formData (setField (B := example_builtins) empty_form "__proto__" [] (VStr ""))
      = {[ "__proto__" := VStr "" ]}
      /\ validation_errors proto_schema {[ "__proto__" := VStr "" ]} = ∅
      /\ snd (validateForm proto_schema (form_of {[ "__proto__" := VStr "" ]})) = true).
Proof. vm_compute. repeat split; reflexivity. Qed.

(** C9, amended. For every schema, every top-level field of it that is
    required and is not named [__proto__], and every ValueMap that stores
    boolean [false], the number [0] or the empty string under the name of
    that field, [validateForm] records the message "<name> is required" for
    the field and answers [false]: the field counts as missing although a
    value is set. *)
Theorem validateForm_reports_falsy (sch : schema) (st : DynamicForm_state) (fs : list field)
    (f : field) (v : value) :
  fields sch = Some fs ->
  f ∈ fs ->
  name f ≠ "__proto__" ->
  required f = true ->
  formData st !! name f = Some v ->
  v = VBool false \/ v = VNum 0 \/ v = VStr "" ->
  validationErrors (fst (validateForm sch st)) !! name f = Some (VStr (name f +:+ " is required"))
  /\ snd (validateForm sch st) = false.
Proof.
  intros Hfs Hin Hproto Hreq Hv Hfalsy.
  assert (truthy (obj_get (formData st) (name f)) = false) as Ht.
  { unfold obj_get. rewrite Hv. by destruct Hfalsy as [->|[->| ->]]. }
  assert (validation_errors sch (formData st) !! name f
          = Some (VStr (name f +:+ " is required"))) as Herr.
  { rewrite validation_errors_lookup, Hfs. simpl.
    apply String.eqb_neq in Hproto. rewrite Hproto.
    assert (existsb (fun f0 => bool_decide (name f0 = name f) && field_fails (formData st) f0) fs
            = true) as ->; [|done].
    apply existsb_exists. exists f. split; [by apply list_elem_of_In|].
    rewrite field_fails_falsy, Hreq, Ht. simpl. by rewrite bool_decide_eq_true_2. }
  split; [exact Herr|].
  apply not_true_is_false. rewrite validateForm_true. intros Hempty.
  rewrite Hempty, lookup_empty in Herr. discriminate.
Qed.

Lemma validateForm_reports_falsy_witness :
  (fields flag_schema = Some [boolean_field "is_active" true]
   /\ formData (form_of {[ "is_active" := VBool false ]}) !! "is_active" = Some (VBool false))
  /\ validationErrors (fst (validateForm flag_schema (form_of {[ "is_active" := VBool false ]})))
       !! "is_active" = Some (VStr "is_active is required")
  /\ snd (validateForm flag_schema (form_of {[ "is_active" := VBool false ]})) = false.
Proof.
  split; [split; reflexivity|].
  apply (validateForm_reports_falsy flag_schema (form_of {[ "is_active" := VBool false ]})
           [boolean_field "is_active" true] (boolean_field "is_active" true) (VBool false)).
  - reflexivity.
  - apply list_elem_of_here.
  - discriminate.
  - reflexivity.
  - reflexivity.
  - left. reflexivity.
Defined.

(** Where [validateForm] and the specification's validate differ.
    - The fields below a nested field are not validated: with a required
      [address] whose required child [city] is missing, the specification's
      validate reports the path [address, city], and [validateForm] reports
      nothing and answers [true].
    - A value that is present and falsy counts as missing: with [false]
      stored under the required [is_active], the specification's validate
      reports nothing, and [validateForm] reports [is_active].
    - A required field named after a member of [Object.prototype] is not
      reported on an empty ValueMap, where the specification's validate
      reports it: the read finds the inherited member.
    - A required field named [__proto__] that stores the empty string is not
      reported although the value read under it is falsy. *)
Lemma validateForm_misses_nested :
  (spec_validate address_schema {[ "address" := VObj ∅ ]} = [["address"; "city"]]
   /\ validation_errors address_schema {[ "address" := VObj ∅ ]} = ∅
   /\ snd (validateForm address_schema (form_of {[ "address" := VObj ∅ ]})) = true)
  /\ (spec_validate flag_schema {[ "is_active" := VBool false ]} = []
      /\ dom (validation_errors flag_schema {[ "is_active" := VBool false ]}) = {[ "is_active" ]}
      /\ snd (validateForm flag_schema (form_of {[ "is_active" := VBool false ]})) = false)
  /\ (spec_validate toString_schema ∅ = [["toString"]]
      /\ validation_errors toString_schema ∅ = ∅
      /\ snd (validateForm toString_schema empty_form) = true)
  /\ (truthy (obj_get {[ "__proto__" := VStr "" ]} "__proto__") = false
      /\ validation_errors proto_schema {[ "__proto__" := VStr "" ]} = ∅).
Proof. vm_compute. repeat split; reflexivity. Qed.

(** C2, amended. [validateForm] looks at the top-level fields only: a name
    other than [__proto__] is reported exactly when a top-level field of
    that name is required and the value read under it is falsy, and the
    answer is [true] exactly when nothing is reported. For a schema of one
    required field (whose name is not a member inherited from
    [Object.prototype]) and an empty ValueMap, exactly the path of that field
    is reported; after [setField] wrote a value that is not falsy at that
    path, nothing is reported. *)
Theorem validateForm_top_level {B : Builtins} (sch : schema) (st : DynamicForm_state) :
  (forall k : string,
     k ≠ "__proto__" ->
     (k ∈ dom (validation_errors sch (formData st))
      <-> exists f, f ∈ default [] (fields sch) /\ name f = k /\ required f = true
                    /\ truthy (obj_get (formData st) k) = false))
  /\ (snd (validateForm sch st) = true <-> validation_errors sch (formData st) = ∅)
  /\ (forall (f : field) (v : value),
        fields sch = Some [f] ->
        required f = true ->
        inherited (name f) = false ->
        formData st = ∅ ->
        truthy v = true ->
        reported_paths sch (formData st) = {[ [name f] ]}
        /\ reported_paths sch (formData (setField st (name f) [] v)) = ∅
        /\ snd (validateForm sch (setField st (name f) [] v)) = true).
Proof.
  split.
  { intros k Hk. rewrite validation_errors_dom. split; [by intros [_ Hf]|by split]. }
  split; [apply validateForm_true|].
  intros f v Hfs Hreq Hinh Hempty Hv.
  assert (validation_errors sch (formData (setField st (name f) [] v)) = ∅) as Hafter.
  { apply map_eq. intros k. rewrite validation_errors_lookup, lookup_empty, Hfs. simpl.
    rewrite orb_false_r, field_fails_falsy, Hreq. simpl.
    case_bool_decide as Hk; [|reflexivity]. subst k. simpl.
    by rewrite obj_get_insert_eq, Hv. }
  split; [|split].
  - unfold reported_paths. apply set_eq. intros p.
    rewrite elem_of_map, elem_of_singleton. split.
    + intros (k & -> & Hk). apply validation_errors_dom in Hk as (_ & g & Hin & Hname & _).
      rewrite Hfs in Hin. simpl in Hin. apply list_elem_of_singleton in Hin. by subst.
    + intros ->. exists (name f). split; [reflexivity|].
      apply validation_errors_dom. split.
      { intros Heq. rewrite Heq in Hinh. discriminate. }
      exists f. rewrite Hfs. simpl.
      split; [apply list_elem_of_here|]. repeat split; [done|].
      rewrite Hempty. unfold obj_get. by rewrite lookup_empty, Hinh.
  - unfold reported_paths. rewrite Hafter, dom_empty_L. apply set_map_empty.
  - by apply validateForm_true.
Qed.

Lemma validateForm_top_level_witness :
  reported_paths one_field_schema (formData empty_form) = {[ ["name"] ]}
  /\ reported_paths one_field_schema
       (formData (setField (B := example_builtins) empty_form "name" [] (VStr "Ann"))) = ∅
  /\ snd (validateForm one_field_schema
            (setField (B := example_builtins) empty_form "name" [] (VStr "Ann"))) = true.
Proof.
  apply (proj2 (proj2 (validateForm_top_level (B := example_builtins) one_field_schema empty_form))
           (text_field "name" true) (VStr "Ann")).
  - reflexivity.
  - reflexivity.
  - reflexivity.
  - reflexivity.
  - reflexivity.
Defined.

(** ** The chat path *)

(** The form path writes one key and leaves every other key as it is. *)
Lemma handleFieldChange_frame (st : DynamicForm_state) (k k' : string) (v : value) :
  k ≠ k' -> formData (handleFieldChange st k v) !! k' = formData st !! k'.
Proof. intros Hne. simpl. by rewrite lookup_insert_ne. Qed.




(** The confirmed reset clears the conversation and the ValueMap together. *)
Lemma clearConversation_resets (w : World) :
  messages (chat (snd (clearConversation_confirmed w))) = []
  /\ app_formData (app (snd (clearConversation_confirmed w))) = VObj ∅.
Proof. by split. Qed.

(** ** The forwarder *)

(** A form that does not pass [validateForm] is not submitted: the alert is
    shown and no request goes out. *)
Lemma handleSubmit_invalid {B : Builtins} {P : Platform} (sch : schema) (st : DynamicForm_state)
    (w : World) :
  snd (validateForm sch st) = false ->
  trace (snd (handleSubmit sch st w))
  = trace w ++ [EvAlert "Validation Error" "Please fill in all required fields."].
Proof.
  unfold handleSubmit. destruct (validateForm sch st) as [st' valid]. simpl.
  intros ->. reflexivity.
Qed.

Section Forwarder.
Context {B : Builtins} {P : Platform}.
Variables (apiUrl : string) (method data headers timeout : value).

(** One request goes out, whatever the answer. *)
Lemma forwardToExternalApi_trace (w : World) :
  trace (snd (forwardToExternalApi apiUrl method data headers timeout w))
  = trace w ++ [EvPost "/forward" (forward_body apiUrl method data headers timeout)].
Proof.
  unfold forwardToExternalApi, try_catch, bind, apiClient_post, throw, ret.
  destruct (http _ _ _) as [st d|m]; [destruct (_ && _)|]; reflexivity.
Qed.

(** The outcome of the call, by the answer of the server. *)
Lemma forwardToExternalApi_outcome (w : World) :
  fst (forwardToExternalApi apiUrl method data headers timeout w)
  = match http (trace w) "/forward" (forward_body apiUrl method data headers timeout) with
    | HttpResponse st d =>
        if (200 <=? st)%Z && (st <? 300)%Z then Return d
        else Throw (Error (forward_failed +:+
                      template (js_or (get_member d "detail")
                                  (VStr ("Request failed with status code " +:+ pretty st)))))
    | NetworkError m => Throw (Error (forward_failed +:+ m))
    end.
Proof.
  unfold forwardToExternalApi, try_catch, bind, apiClient_post, throw, ret.
  destruct (http _ _ _) as [st d|m]; [destruct (_ && _)|]; reflexivity.
Qed.

End Forwarder.

(** When the server cannot be reached, the forwarder throws. *)
Lemma forwardToExternalApi_throws_on_network_error :
  fst (forwardToExternalApi (B := example_builtins)
         (P := example_platform (NetworkError "Network Error") (Return "") None)
         "https://httpbin.org/post" (VStr "POST") (VObj {[ "name" := VStr "Ann" ]})
         VUndefined VUndefined (initial_world (E := example_env)))
  = Throw (Error "Failed to forward to external API: Network Error").
Proof. vm_compute. reflexivity. Qed.

(** C3, amended. For every invocation of [forwardToExternalApi]: when its
    request fails at the transport level, it throws an [Error] whose message
    is "Failed to forward to external API: " followed by the message of the
    transport error; when the server answers with a status outside 200-299,
    it throws an [Error] whose message carries the [detail] of the answer when
    that is truthy, and the message of the status otherwise; only a 2xx
    answer makes it return, and it returns the body of the answer as it is. *)
Theorem forwardToExternalApi_failure {B : Builtins} {P : Platform} (apiUrl : string)
    (method data headers timeout : value) (w : World) :
  (forall m,
     http (trace w) "/forward" (forward_body apiUrl method data headers timeout) = NetworkError m ->
     fst (forwardToExternalApi apiUrl method data headers timeout w)
     = Throw (Error (forward_failed +:+ m)))
  /\ (forall st d,
        http (trace w) "/forward" (forward_body apiUrl method data headers timeout)
        = HttpResponse st d ->
        ~ (200 <= st < 300)%Z ->
        fst (forwardToExternalApi apiUrl method data headers timeout w)
        = Throw (Error (forward_failed +:+
                   template (js_or (get_member d "detail")
                               (VStr ("Request failed with status code " +:+ pretty st))))))
  /\ (forall st d,
        http (trace w) "/forward" (forward_body apiUrl method data headers timeout)
        = HttpResponse st d ->
        (200 <= st < 300)%Z ->
        fst (forwardToExternalApi apiUrl method data headers timeout w) = Return d).
Proof.
  rewrite forwardToExternalApi_outcome. repeat split.
  - intros m ->. reflexivity.
  - intros st d -> Hst.
    assert ((200 <=? st)%Z && (st <? 300)%Z = false) as -> by lia. reflexivity.
  - intros st d -> Hst.
    assert ((200 <=? st)%Z && (st <? 300)%Z = true) as -> by lia. reflexivity.
Qed.

Lemma forwardToExternalApi_failure_witness :
  fst (forwardToExternalApi (B := example_builtins)
         (P := example_platform
                  (HttpResponse 502 (VObj {[ "detail" := VStr "Bad gateway" ]})) (Return "") None)
         "https://httpbin.org/post" (VStr "POST") (VObj {[ "name" := VStr "Ann" ]})
         VUndefined VUndefined (initial_world (E := example_env)))
  = Throw (Error "Failed to forward to external API: Bad gateway").
Proof.
  refine (proj1 (proj2 (forwardToExternalApi_failure (B := example_builtins)
           (P := example_platform
                    (HttpResponse 502 (VObj {[ "detail" := VStr "Bad gateway" ]})) (Return "") None)
           "https://httpbin.org/post" (VStr "POST") (VObj {[ "name" := VStr "Ann" ]})
           VUndefined VUndefined (initial_world (E := example_env))))
           502%Z (VObj {[ "detail" := VStr "Bad gateway" ]}) eq_refl _).
  lia.
Defined.

(** The caller keeps the failure from the results view: [handleFormSubmit]
    catches the error, shows an alert, and leaves [apiResults] and the
    current view as they were. *)
Lemma handleFormSubmit_failure {B : Builtins} {P : Platform} (data : value) (w : World) (e : exn) :
  fst (forwardToExternalApi "https://httpbin.org/post" (VStr "POST") data VUndefined VUndefined
         (snd (setLoading true w))) = Throw e ->
  apiResults (app (snd (handleFormSubmit data w))) = apiResults (app w)
  /\ currentView (app (snd (handleFormSubmit data w))) = currentView (app w)
  /\ loading (app (snd (handleFormSubmit data w))) = false
  /\ fst (handleFormSubmit data w) = Return tt.
Proof.
  intros Hthrow. unfold handleFormSubmit, try_finally, try_catch, bind.
  pose proof (forwardToExternalApi_trace "https://httpbin.org/post" (VStr "POST") data
                VUndefined VUndefined (snd (setLoading true w))) as Htr.
  simpl in Hthrow |- *.
  destruct (forwardToExternalApi _ _ _ _ _ _) as [[r|e'] w'] eqn:E; simpl in *; [discriminate|].
  assert (app w' = app (snd (setLoading true w))) as Happ.
  { revert E. unfold forwardToExternalApi, try_catch, bind, apiClient_post, throw, ret.
    destruct (http _ _ _) as [st d|m]; [destruct (_ && _)|]; intros [= <- <-] || intros [= <-];
      reflexivity. }
  simpl. rewrite Happ. simpl. repeat split; reflexivity.
Qed.

(** C5. Every invocation of [forwardToExternalApi] sends exactly one
    request, whatever the server answers: afterwards the requests that went
    out are those that had gone out before, followed by the one request of
    the invocation. A retry is an invocation of its own, started by the
    caller: [onRetry] runs [handleFormSubmit] on the ValueMap of App, which
    sends one request that carries that same ValueMap. *)
Theorem forwardToExternalApi_one_call {B : Builtins} {P : Platform} (apiUrl : string)
    (method data headers timeout : value) (w : World) :
  posts (trace (snd (forwardToExternalApi apiUrl method data headers timeout w)))
  = posts (trace w) ++ [("/forward", forward_body apiUrl method data headers timeout)]
  /\ posts (trace (snd (onRetry w)))
     = posts (trace w)
       ++ [("/forward",
            forward_body "https://httpbin.org/post" (VStr "POST") (app_formData (app w))
              VUndefined VUndefined)].
Proof.
  split.
  - rewrite forwardToExternalApi_trace. unfold posts. by rewrite omap_app.
  - unfold onRetry, bind at 1, get, handleFormSubmit, try_finally, try_catch, bind.
    pose proof (forwardToExternalApi_trace "https://httpbin.org/post" (VStr "POST")
                  (app_formData (app w)) VUndefined VUndefined (snd (setLoading true w))) as Htr.
    simpl in Htr |- *.
    destruct (forwardToExternalApi _ _ _ _ _ _) as [[r|e'] w'] eqn:E; simpl in *.
    + rewrite Htr. unfold posts. by rewrite omap_app.
    + rewrite Htr. unfold posts. rewrite !omap_app. simpl. by rewrite app_nil_r.
Qed.

(** ** The voice service: the recorded file *)

(** When reading the recorded file fails and deleting it fails too,
    [transcribeAudio] logs the second failure, throws the first, and the
    file is still there. *)
Lemma transcribeAudio_leaves_file :
  fst (transcribeAudio (B := example_builtins) (E := example_env)
         (P := example_platform (NetworkError "") (Throw (Error "read failed"))
                  (Some (Error "delete failed")))
         (Some recording_uri) recorded_world)
  = Throw (Error "read failed")
  /\ files (snd (transcribeAudio (B := example_builtins) (E := example_env)
                   (P := example_platform (NetworkError "") (Throw (Error "read failed"))
                            (Some (Error "delete failed")))
                   (Some recording_uri) recorded_world))
     = {[ recording_uri ]}
  /\ trace (snd (transcribeAudio (B := example_builtins) (E := example_env)
                   (P := example_platform (NetworkError "") (Throw (Error "read failed"))
                            (Some (Error "delete failed")))
                   (Some recording_uri) recorded_world))
     = [EvReadFile recording_uri; EvDeleteFile recording_uri false].
Proof. vm_compute. repeat split; reflexivity. Qed.

Ltac list_member :=
  repeat first [ apply list_elem_of_here | apply list_elem_of_further ].

(** A case analysis on the next answer of the platform that the goal
    depends on. *)
Ltac destruct_effect :=
  match goal with
  | |- context [match ?x with _ => _ end] =>
      let T := type of x in
      lazymatch T with
      | outcome _ => idtac
      | option exn => idtac
      | option string => idtac
      | bool => idtac
      end;
      destruct x eqn:?
  end.

Ltac file_gone :=
  solve [ simpl; apply not_elem_of_difference; right; apply elem_of_singleton; reflexivity ].

Ltac not_list_member H :=
  repeat (apply elem_of_cons in H; destruct H as [H|H]; [discriminate H|]);
  apply elem_of_nil in H; destruct H.

(** C6, amended. On every exit path of [transcribeAudio] for a non-empty
    URI (the text is returned, the file cannot be read, the key is
    missing, the request fails or is refused, the answer cannot be read, or
    the deletion itself fails) [FileSystem.deleteAsync] is called on the
    file; the file is gone at the exit when one of these calls succeeded, in
    particular when the platform never fails to delete. When every call
    fails, the files are as they were. *)
Theorem transcribeAudio_cleanup {B : Builtins} {E : Env} {P : Platform} (uri : string)
    (w : World) :
  uri ≠ "" ->
  exists events,
    trace (snd (transcribeAudio (Some uri) w)) = trace w ++ events
    /\ (exists done, EvDeleteFile uri done ∈ events)
    /\ (EvDeleteFile uri true ∈ events -> uri ∉ files (snd (transcribeAudio (Some uri) w)))
    /\ (EvDeleteFile uri true ∉ events -> files (snd (transcribeAudio (Some uri) w)) = files w)
    /\ ((forall t, deleteAsync t uri = None) -> uri ∉ files (snd (transcribeAudio (Some uri) w))).
Proof.
  intros Huri. apply String.eqb_neq in Huri.
  unfold transcribeAudio, try_catch, bind, platform_ask, FileSystem_deleteAsync, when,
    throw, ret, no_uri.
  simpl. rewrite Huri. simpl.
  repeat (destruct_effect; simpl).
  all: eexists; split; [rewrite <- ?app_assoc; simpl; reflexivity|].
  all: split; [eexists; list_member|].
  all: split; [try (intros _; file_gone); intros Hin; not_list_member Hin|].
  all: split; [try reflexivity; intros Hnot; exfalso; apply Hnot; list_member|].
  all: intros Hdel; try file_gone.
  all: repeat match goal with D : deleteAsync _ _ = Some _ |- _ => rewrite Hdel in D end.
  all: discriminate.
Qed.

Lemma transcribeAudio_cleanup_witness :
  exists events,
    trace (snd (transcribeAudio (B := example_builtins) (E := example_env)
                  (P := example_platform (NetworkError "") (Return "") None)
                  (Some recording_uri) recorded_world))
    = trace recorded_world ++ events
    /\ (exists done, EvDeleteFile recording_uri done ∈ events)
    /\ (EvDeleteFile recording_uri true ∈ events ->
        recording_uri ∉ files (snd (transcribeAudio (B := example_builtins) (E := example_env)
                                      (P := example_platform (NetworkError "") (Return "") None)
                                      (Some recording_uri) recorded_world)))
    /\ (EvDeleteFile recording_uri true ∉ events ->
        files (snd (transcribeAudio (B := example_builtins) (E := example_env)
                      (P := example_platform (NetworkError "") (Return "") None)
                      (Some recording_uri) recorded_world))
        = files recorded_world)
    /\ ((forall t, deleteAsync (Platform := example_platform (NetworkError "") (Return "") None)
                     t recording_uri = None) ->
        recording_uri ∉ files (snd (transcribeAudio (B := example_builtins) (E := example_env)
                                      (P := example_platform (NetworkError "") (Return "") None)
                                      (Some recording_uri) recorded_world))).
Proof.
  apply (transcribeAudio_cleanup (B := example_builtins) (E := example_env)
           (P := example_platform (NetworkError "") (Return "") None)
           recording_uri recorded_world).
  discriminate.
Defined.

(** ** The voice service: one utterance at a time *)

(** The flag [isPlaying] follows the reports of the engine: it is set when
    the engine reports the start of an utterance and cleared when it reports
    its end. *)
Lemma isPlaying_follows_reports (options : speak_options) (error : exn) (w : World) :
  isPlaying (voice (snd (speech_onStart options w))) = true
  /\ isPlaying (voice (snd (speech_onDone options w))) = false
  /\ isPlaying (voice (snd (speech_onStopped options w))) = false
  /\ isPlaying (voice (snd (speech_onError options error w))) = false.
Proof.
  unfold speech_onStart, speech_onDone, speech_onStopped, speech_onError.
  repeat split.
  - by destruct (opt_onStart options).
  - by destruct (opt_onDone options).
  - by destruct (opt_onStopped options).
  - by destruct (opt_onError options).
Qed.

(** C7. Two calls of [speak] in a row, the second before the engine
    reported the start of the first: the first utterance is in progress and
    the flag [isPlaying] is still clear, so the second call hands its
    utterance to the engine without a call of [Speech.stop]; two utterances
    are in progress and the first was not stopped. *)
Theorem speak_twice_without_stop :
  let first := snd (speak (B := example_builtins)
                      (P := example_platform (NetworkError "") (Return "") None)
                      "Hello" no_options (initial_world (E := example_env))) in
  let second := snd (speak (B := example_builtins)
                       (P := example_platform (NetworkError "") (Return "") None)
                       "world" no_options first) in
  in_progress (trace first) = 1
  /\ isPlaying (voice first) = false
  /\ trace second
     = [ EvSpeechSpeak "Hello" (VNum 1) (VNum 1) (VStr "en-US") VNull;
         EvSpeechSpeak "world" (VNum 1) (VNum 1) (VStr "en-US") VNull ]
  /\ (EvSpeechStop ∉ trace second)
  /\ in_progress (trace second) = 2.
Proof.
  vm_compute. repeat split; try reflexivity.
  intros Hin. not_list_member Hin.
Qed.

(** The guard of [speak], lines 213-216. Whenever [speak] is invoked with a
    text that is not blank while the flag [isPlaying] is set (the engine has
    reported the start of an utterance and not yet its end), [Speech.stop]
    is called, and awaited, before the new utterance is handed to
    [Speech.speak]: the two calls are the only ones made, in this order; when
    [Speech.stop] fails, no utterance is handed over, the flag is cleared and
    the error is thrown. While the flag is clear, the utterance is handed
    over without a stop. *)
Lemma speak_stops_when_playing {B : Builtins} {P : Platform} (text : string)
    (options : speak_options) (w : World) :
  no_text text = false ->
  (isPlaying (voice w) = true ->
   Speech_stop (trace w) = None ->
   trace (snd (speak text options w))
   = trace w ++ [EvSpeechStop; utterance text options (voice w)])
  /\ (forall e,
        isPlaying (voice w) = true ->
        Speech_stop (trace w) = Some e ->
        trace (snd (speak text options w)) = trace w ++ [EvSpeechStop]
        /\ fst (speak text options w) = Throw e
        /\ isPlaying (voice (snd (speak text options w))) = false)
  /\ (isPlaying (voice w) = false ->
      trace (snd (speak text options w)) = trace w ++ [utterance text options (voice w)]).
Proof.
  intros Htext.
  unfold speak, try_catch, bind, get, when, platform_call, set_isPlaying, modify, throw, ret.
  rewrite Htext. split; [|split].
  - intros Hplaying Hstop. rewrite Hplaying, Hstop. simpl.
    destruct (Speech_speak _); simpl; by rewrite <- app_assoc.
  - intros e Hplaying Hstop. rewrite Hplaying, Hstop. repeat split; reflexivity.
  - intros Hplaying. rewrite Hplaying. simpl.
    destruct (Speech_speak _); reflexivity.
Qed.

Lemma speak_stops_when_playing_witness :
  trace (snd (speak (B := example_builtins)
                (P := example_platform (NetworkError "") (Return "") None)
                "world" no_options
                (snd (speech_onStart no_options
                        (snd (speak (B := example_builtins)
                                (P := example_platform (NetworkError "") (Return "") None)
                                "Hello" no_options (initial_world (E := example_env))))))))
  = [ EvSpeechSpeak "Hello" (VNum 1) (VNum 1) (VStr "en-US") VNull;
      EvSpeechReport "start";
      EvSpeechStop;
      EvSpeechSpeak "world" (VNum 1) (VNum 1) (VStr "en-US") VNull ].
Proof.
  refine (proj1 (speak_stops_when_playing (B := example_builtins)
            (P := example_platform (NetworkError "") (Return "") None)
            "world" no_options
            (snd (speech_onStart no_options
                    (snd (speak (B := example_builtins)
                            (P := example_platform (NetworkError "") (Return "") None)
                            "Hello" no_options (initial_world (E := example_env))))))
            _) _ _).
  - reflexivity.
  - reflexivity.
  - reflexivity.
Defined.

(** ** Two-state relations that every step of a computation respects *)

Section Respects.
Context (R : relation World) `{!PreOrder R}.

Lemma respects_ret {A} (a : A) : respects R (ret a).
Proof. intros w. reflexivity. Qed.

Lemma respects_throw {A} (e : exn) : respects R (throw (A := A) e).
Proof. intros w. reflexivity. Qed.

Lemma respects_get : respects R get.
Proof. intros w. reflexivity. Qed.

Lemma respects_modify (f : World -> World) : (forall w, R w (f w)) -> respects R (modify f).
Proof. intros Hf w. apply Hf. Qed.

Lemma respects_bind {A C} (c : M World A) (k : A -> M World C) :
  respects R c -> (forall a, respects R (k a)) -> respects R (bind c k).
Proof.
  intros Hc Hk w. unfold bind. specialize (Hc w).
  destruct (c w) as [[a|e] w']; simpl in *; [|exact Hc].
  transitivity w'; [exact Hc | apply Hk].
Qed.

Lemma respects_try_catch {A} (c : M World A) (h : exn -> M World A) :
  respects R c -> (forall e, respects R (h e)) -> respects R (try_catch c h).
Proof.
  intros Hc Hh w. unfold try_catch. specialize (Hc w).
  destruct (c w) as [[a|e] w']; simpl in *; [exact Hc|].
  transitivity w'; [exact Hc | apply Hh].
Qed.

Lemma respects_try_finally {A} (c : M World A) (f : World -> World) :
  respects R c -> (forall w, R w (f w)) -> respects R (try_finally c f).
Proof.
  intros Hc Hf w. unfold try_finally. specialize (Hc w).
  destruct (c w) as [r w']; simpl in *. transitivity w'; [exact Hc | apply Hf].
Qed.

Lemma respects_when (b : bool) (c : M World unit) : respects R c -> respects R (when b c).
Proof. intros Hc. destruct b; [exact Hc | apply respects_ret]. Qed.

Lemma respects_if {A} (b : bool) (c1 c2 : M World A) :
  respects R c1 -> respects R c2 -> respects R (if b then c1 else c2).
Proof. by destruct b. Qed.

Lemma respects_member {B : Builtins} (v : value) (k : string) :
  respects R (member (S := World) v k).
Proof. destruct v; simpl; first [apply respects_throw | apply respects_ret]. Qed.

Hypothesis grows : forall (e : event) (w : World), R w (set_trace (fun t => t ++ [e]) w).

Lemma respects_emit (e : event) : respects R (emit e).
Proof. apply respects_modify, grows. Qed.

Lemma respects_platform_call (e : event) (answer : list event -> option exn) :
  respects R (platform_call e answer).
Proof. intros w. unfold platform_call. destruct (answer _); apply grows. Qed.

Lemma respects_platform_ask {A} (e : event) (answer : list event -> outcome A) :
  respects R (platform_ask e answer).
Proof. intros w. apply grows. Qed.

End Respects.

#[local] Instance later_preorder : PreOrder later.
Proof.
  split.
  - intros w. by repeat split.
  - intros w1 w2 w3 (Ht1 & Hv1 & Hb1) (Ht2 & Hv2 & Hb2).
    split; [by etransitivity|]. split; auto.
Qed.

Lemma later_grows (e : event) (w : World) : later w (set_trace (fun t => t ++ [e]) w).
Proof. split; [by apply prefix_app_r|]. by split. Qed.

#[local] Instance same_recording_preorder : PreOrder same_recording.
Proof.
  split.
  - intros w. by repeat split.
  - intros w1 w2 w3 (Hv1 & Hb1 & Hn1) (Hv2 & Hb2 & Hn2).
    repeat split; congruence.
Qed.

Lemma same_recording_grows (e : event) (w : World) :
  same_recording w (set_trace (fun t => t ++ [e]) w).
Proof. by repeat split. Qed.

Create HintDb later_db.
#[local] Hint Resolve later_grows same_recording_grows : later_db.

Ltac respects_step :=
  lazymatch goal with
  | |- respects _ (bind _ _) => apply respects_bind; [typeclasses eauto| |intros ?]
  | |- respects _ (try_catch _ _) => apply respects_try_catch; [typeclasses eauto| |intros ?]
  | |- respects _ (try_finally _ _) => apply respects_try_finally; [typeclasses eauto| |intros ?]
  | |- respects _ (when _ _) => apply respects_when; [typeclasses eauto|]
  | |- respects _ (if _ then _ else _) => apply respects_if
  | |- respects _ (modify _) => apply respects_modify; intros ?
  | |- respects _ (ret _) => apply respects_ret; typeclasses eauto
  | |- respects _ (throw _) => apply respects_throw; typeclasses eauto
  | |- respects _ get => apply respects_get; typeclasses eauto
  | |- respects _ (emit _) => apply respects_emit; auto with later_db
  | |- respects _ (platform_call _ _) => apply respects_platform_call; auto with later_db
  | |- respects _ (platform_ask _ _) => apply respects_platform_ask; auto with later_db
  | |- respects _ (member _ _) => apply respects_member; typeclasses eauto
  | |- later _ _ => solve [ split; [reflexivity|]; split; simpl; auto ]
  | |- same_recording _ _ => solve [ repeat split ]
  end.

Ltac respects_later := repeat respects_step; auto.

Section Button.
Context {B : Builtins} {E : Env} {P : Platform}.
Variable props : VoiceButton_props.

Lemma FileSystem_deleteAsync_later (uri : string) :
  respects later (FileSystem_deleteAsync uri).
Proof.
  intros w. unfold FileSystem_deleteAsync.
  destruct (deleteAsync _ _); simpl; [apply later_grows|].
  split; [by apply prefix_app_r|]. by split.
Qed.

Lemma transcribeAudio_later (audioUri : option string) :
  respects later (transcribeAudio audioUri).
Proof.
  pose proof FileSystem_deleteAsync_later.
  unfold transcribeAudio. cbv zeta. respects_later.
Qed.

Lemma setIsRecording_false_later : respects later (setIsRecording props false).
Proof. unfold setIsRecording, isRecording_effect, set_timers. respects_later. Qed.

Lemma stopped_at_limit_later (w w' : World) :
  later w w' -> stopped_at_limit props w -> stopped_at_limit props w'.
Proof.
  intros (Ht & Hv & Hb) (H1 & H2 & H3 & H4).
  repeat split; auto; by eapply elem_of_prefix.
Qed.

(** [stopRecording] on a service that records: the recorder is asked to
    stop and the service does not record any more, whether the recorder
    stops or fails. *)
Lemma stopRecording_stops (w : World) :
  vs_isRecording (voice w) = true ->
  recording (voice w) = true ->
  vs_isRecording (voice (snd (stopRecording w))) = false
  /\ trace (snd (stopRecording w)) = trace w ++ [EvStopRecording]
  /\ button (snd (stopRecording w)) = button w.
Proof.
  intros Hrec Hobj.
  unfold stopRecording, try_catch, bind, get, platform_call, set_recording, modify, throw, ret.
  rewrite Hrec, Hobj. simpl.
  destruct (stopAndUnloadAsync _); simpl; by repeat split.
Qed.

Lemma stopRecording_later : respects later stopRecording.
Proof. unfold stopRecording, set_recording. respects_later. Qed.

Lemma handleStopRecording_later : respects later (handleStopRecording props true).
Proof.
  pose proof setIsRecording_false_later. pose proof transcribeAudio_later.
  pose proof stopRecording_later.
  unfold handleStopRecording, setIsTranscribing, call_prop, Alert_alert. simpl.
  respects_later.
Qed.

(** [handleStopRecording] catches every error. *)
Lemma handleStopRecording_returns (isRec : bool) (w : World) :
  fst (handleStopRecording props isRec w) = Return tt.
Proof.
  unfold handleStopRecording. destruct isRec; simpl; [|reflexivity].
  unfold try_finally, try_catch.
  destruct (bind _ _ w) as [[[]|e] w']; simpl; [reflexivity|].
  by destruct (onError props).
Qed.

End Button.

(** *** What a computation establishes, and keeps once established *)

Section Establishes.
Context (Pre Q : World -> Prop).
Hypothesis stable : forall w w', later w w' -> Q w -> Q w'.

Lemma establishes_bind {A C} (c : M World A) (k : A -> M World C) :
  establishes Pre Q c -> (forall a, respects later (k a)) -> establishes Pre Q (bind c k).
Proof.
  intros Hc Hk w Hpre. unfold bind. specialize (Hc w Hpre).
  destruct (c w) as [[a|e] w']; simpl in *; [|exact Hc].
  by eapply stable; [apply Hk|].
Qed.

Lemma establishes_after_modify {C} (f : World -> World) (k : unit -> M World C) :
  (forall w, Pre w -> Pre (f w)) -> establishes Pre Q (k tt) -> establishes Pre Q (bind (modify f) k).
Proof. intros Hf Hk w Hpre. unfold bind, modify. simpl. apply Hk, Hf, Hpre. Qed.

Lemma establishes_try_catch {A} (c : M World A) (h : exn -> M World A) :
  establishes Pre Q c -> (forall e, respects later (h e)) -> establishes Pre Q (try_catch c h).
Proof.
  intros Hc Hh w Hpre. unfold try_catch. specialize (Hc w Hpre).
  destruct (c w) as [[a|e] w']; simpl in *; [exact Hc|].
  by eapply stable; [apply Hh|].
Qed.

Lemma establishes_try_finally {A} (c : M World A) (f : World -> World) :
  establishes Pre Q c -> (forall w, later w (f w)) -> establishes Pre Q (try_finally c f).
Proof.
  intros Hc Hf w Hpre. unfold try_finally. specialize (Hc w Hpre).
  destruct (c w) as [r w']; simpl in *. by eapply stable; [apply Hf|].
Qed.

End Establishes.

Section Limit.
Context {B : Builtins} {E : Env} {P : Platform}.
Variable props : VoiceButton_props.

Lemma asked_to_stop_later (w w' : World) : later w w' -> asked_to_stop w -> asked_to_stop w'.
Proof. intros (Ht & Hv & _) (H1 & H2). split; [auto | by eapply elem_of_prefix]. Qed.

(** When the service records, [handleStopRecording] asks the recorder to
    stop and leaves the service not recording, whether the recorder stops or
    fails and whatever becomes of the transcription. *)
Lemma handleStopRecording_stops :
  establishes records asked_to_stop (handleStopRecording props true).
Proof.
  pose proof (setIsRecording_false_later props). pose proof transcribeAudio_later.
  unfold handleStopRecording. simpl.
  apply establishes_try_finally; [apply asked_to_stop_later| |intros w; respects_later].
  apply establishes_try_catch; [apply asked_to_stop_later| |intros e; respects_later].
  2: { unfold call_prop. respects_later. }
  unfold setIsTranscribing. apply establishes_after_modify; [by intros w [? ?]|].
  apply establishes_bind; [apply asked_to_stop_later| |].
  - intros w [Hrec Hobj]. destruct (stopRecording_stops w Hrec Hobj) as (Hv & Ht & _).
    split; [exact Hv|]. rewrite Ht. apply elem_of_app. right. list_member.
  - intros audioUri. unfold call_prop, Alert_alert. respects_later.
Qed.

(** A tick of the interval refreshes the displayed duration only. *)
Lemma tick_same_recording (w : World) :
  same_recording w (snd (button_step props DurationTick w)).
Proof.
  revert w.
  change (respects same_recording (button_step props DurationTick)).
  unfold button_step, durationTimer_callback, getRecordingDuration, setRecordingDuration.
  respects_later.
Qed.

Lemma tick_later (w : World) : later w (snd (button_step props DurationTick w)).
Proof.
  revert w.
  change (respects later (button_step props DurationTick)).
  unfold button_step, durationTimer_callback, getRecordingDuration, setRecordingDuration.
  respects_later.
Qed.

Lemma tick_armed (due : Z) (w : World) :
  armed due w -> armed due (snd (button_step props DurationTick w)).
Proof.
  intros (H1 & H2 & H3 & H4).
  destruct (tick_same_recording w) as (Hv & Hb & Hn).
  unfold armed. by rewrite Hv, Hb, Hn.
Qed.

(** Time that passes short of the deadline changes nothing but the time. *)
Lemma elapse_before (due dt : Z) (w : World) :
  armed due w ->
  (now w + Z.max 0 dt < due)%Z ->
  armed due (snd (button_step props (Elapse dt) w))
  /\ now (snd (button_step props (Elapse dt) w)) = (now w + Z.max 0 dt)%Z.
Proof.
  intros (H1 & H2 & H3 & H4) Hlt.
  unfold button_step, bind, modify, get. simpl. rewrite H3.
  assert ((due <=? now w + Z.max 0 dt)%Z = false) as -> by lia.
  by repeat split.
Qed.

(** Time that passes while no timeout is pending changes nothing but the
    time. *)
Lemma elapse_idle (dt : Z) (w : World) :
  maxTimeTimer (button w) = None ->
  snd (button_step props (Elapse dt) w) = set_now (fun t => t + Z.max 0 dt)%Z w.
Proof. intros Hnone. unfold button_step, bind, modify, get. simpl. by rewrite Hnone. Qed.

(** Time that reaches the deadline fires the timeout: its callback asks
    the recorder to stop and shows the alert. *)
Lemma elapse_fires (due dt : Z) (w : World) :
  armed due w ->
  (due <= now w + Z.max 0 dt)%Z ->
  stopped_at_limit props (snd (button_step props (Elapse dt) w)).
Proof.
  intros (H1 & H2 & H3 & H4) Hle.
  unfold button_step, bind at 1 2, modify, get. simpl. rewrite H3.
  assert ((due <=? now w + Z.max 0 dt)%Z = true) as -> by lia.
  unfold set_timers, bind at 1, modify. simpl.
  set (w1 := set_button _ _).
  assert (records w1) as Hrec by (by split).
  assert (maxTimeTimer (button w1) = None) as Hnone by reflexivity.
  unfold maxTimeTimer_callback, bind.
  pose proof (handleStopRecording_returns props true w1) as Hret.
  pose proof (handleStopRecording_stops w1 Hrec) as [Hv Hin].
  pose proof (handleStopRecording_later props w1) as (_ & _ & Hb).
  destruct (handleStopRecording props true w1) as [r w2]. simpl in *. subst r.
  unfold Alert_alert, emit, modify. simpl.
  repeat split; auto.
  - apply elem_of_app. by left.
  - apply elem_of_app. right. list_member.
Qed.

(** Once the limit stopped the recording, inputs other than a press leave
    it stopped. *)
Lemma run_stopped (inputs : list button_input) :
  forall w, no_press inputs = true -> stopped_at_limit props w ->
            stopped_at_limit props (button_run props inputs w).
Proof.
  induction inputs as [|i inputs IH]; intros w Hnp Hs; simpl; [exact Hs|].
  apply andb_true_iff in Hnp as [Hi Hnp]. apply IH; [exact Hnp|].
  destruct i as [| |dt]; [discriminate| |].
  - eapply stopped_at_limit_later; [apply tick_later | exact Hs].
  - destruct Hs as (Hv & Hb & Hin & Ha). rewrite (elapse_idle dt w Hb). by repeat split.
Qed.

(** While the timeout is pending and the time stays short of the deadline,
    the service records. *)
Lemma run_before (inputs : list button_input) :
  forall w due, no_press inputs = true -> armed due w ->
                (now w + total_elapsed inputs < due)%Z ->
                armed due (button_run props inputs w).
Proof.
  induction inputs as [|i inputs IH]; intros w due Hnp Ha Hlt; simpl; [exact Ha|].
  apply andb_true_iff in Hnp as [Hi Hnp].
  destruct i as [| |dt]; [discriminate| |]; simpl in Hlt.
  - apply IH; [exact Hnp | by apply tick_armed |].
    destruct (tick_same_recording w) as (_ & _ & ->). exact Hlt.
  - assert (0 <= total_elapsed inputs)%Z as Hpos.
    { clear. induction inputs as [|[| |d] l IHl]; simpl; lia. }
    destruct (elapse_before due dt w Ha) as [Ha' Hn]; [lia|].
    apply IH; [exact Hnp | exact Ha' | lia].
Qed.

(** Once the time that passes reaches the deadline, the recording was
    stopped. *)
Lemma run_fires (inputs : list button_input) :
  forall w due, no_press inputs = true -> armed due w ->
                (due <= now w + total_elapsed inputs)%Z ->
                stopped_at_limit props (button_run props inputs w).
Proof.
  induction inputs as [|i inputs IH]; intros w due Hnp Ha Hle; simpl.
  - destruct Ha as (_ & _ & _ & Hlt). simpl in Hle. lia.
  - apply andb_true_iff in Hnp as [Hi Hnp].
    destruct i as [| |dt]; [discriminate| |]; simpl in Hle.
    + apply (IH _ due); [exact Hnp | by apply tick_armed |].
      destruct (tick_same_recording w) as (_ & _ & ->). exact Hle.
    + destruct (Z.le_gt_cases due (now w + Z.max 0 dt)) as [Hfire|Hwait].
      * apply run_stopped; [exact Hnp | by eapply elapse_fires].
      * destruct (elapse_before due dt w Ha) as [Ha' Hn]; [lia|].
        apply (IH _ due); [exact Hnp | exact Ha' | lia].
Qed.

(** A press on the idle button starts the recorder and arms the timeout
    [maxRecordingTime] milliseconds ahead. *)
Lemma press_arms (w : World) :
  disabled props = false ->
  isInitialized (button w) = true ->
  isTranscribing (button w) = false ->
  vb_isRecording (button w) = false ->
  vs_isRecording (voice w) = false ->
  (forall t, prepareToRecordAsync t = None) ->
  (forall t, startAsync t = None) ->
  (0 < maxRecordingTime props)%Z ->
  armed (now w + maxRecordingTime props) (snd (button_step props Press w))
  /\ now (snd (button_step props Press w)) = now w.
Proof.
  intros Hen Hinit Htr Hvb Hvs Hprep Hstart Hpos.
  unfold button_step, handlePress, handleStartRecording, startRecording, setIsRecording,
    isRecording_effect, setRecordingDuration, set_timers, set_recording, setTimeout_due,
    try_catch, bind, get, when, platform_call, modify, throw, ret.
  simpl. rewrite Hen, Htr, Hvb. simpl. rewrite Hinit. simpl. rewrite Hvs. simpl.
  rewrite Hprep. simpl. rewrite Hstart. simpl. rewrite Hvb. simpl.
  unfold armed. simpl. rewrite Z.max_r by lia. repeat split; lia.
Qed.

End Limit.



(** ** The voice service: the speech settings *)

(** *** Comparisons of binary64 numbers *)

Lemma SFcompare_antisym (a b : spec_float) (c : comparison) :
  SFcompare a b = Some c -> SFcompare b a = Some (CompOpp c).
Proof.
  destruct a as [sa|sa| |sa ma ea], b as [sb|sb| |sb mb eb]; simpl; try discriminate;
    try (intros [= <-]; try destruct sa; try destruct sb; reflexivity).
  intros [= <-]. f_equal.
  destruct sa, sb; try reflexivity.
  - rewrite (Z.compare_antisym ea eb). destruct (ea ?= eb)%Z; simpl; try reflexivity.
    rewrite (Pos.compare_cont_antisym _ _ Eq). simpl. by rewrite CompOpp_involutive.
  - rewrite (Z.compare_antisym ea eb). destruct (ea ?= eb)%Z; simpl; try reflexivity.
    rewrite (Pos.compare_cont_antisym _ _ Eq). simpl. reflexivity.
Qed.

Lemma SFcompare_total (a b : spec_float) :
  a <> S754_nan -> b <> S754_nan -> exists c, SFcompare a b = Some c.
Proof.
  destruct a as [sa|sa| |sa ma ea], b as [sb|sb| |sb mb eb]; simpl; intros Ha Hb;
    try congruence; eauto.
Qed.

Lemma is_nan_Prim2SF (x : float) : is_nan x = false -> Prim2SF x <> S754_nan.
Proof.
  unfold is_nan. rewrite FloatAxioms.eqb_spec. intros Hx Hnan. rewrite Hnan in Hx. discriminate.
Qed.

Lemma ltb_leb (x y : float) : (x <? y)%float = true -> (x <=? y)%float = true.
Proof.
  rewrite FloatAxioms.ltb_spec, FloatAxioms.leb_spec. unfold SFltb, SFleb.
  by destruct (SFcompare _ _) as [[| |]|].
Qed.

Lemma not_ltb_leb (x y : float) :
  is_nan x = false -> is_nan y = false -> (y <? x)%float = false -> (x <=? y)%float = true.
Proof.
  intros Hx%is_nan_Prim2SF Hy%is_nan_Prim2SF.
  rewrite FloatAxioms.ltb_spec, FloatAxioms.leb_spec. unfold SFltb, SFleb.
  destruct (SFcompare_total _ _ Hy Hx) as [c Hc]. rewrite Hc.
  rewrite (SFcompare_antisym _ _ _ Hc). by destruct c.
Qed.

Lemma leb_refl (x : float) : is_nan x = false -> (x <=? x)%float = true.
Proof.
  unfold is_nan. rewrite FloatAxioms.eqb_spec, FloatAxioms.leb_spec. unfold SFeqb, SFleb.
  by destruct (SFcompare _ _) as [[| |]|].
Qed.

Lemma Math_min_le (hi r : float) :
  is_nan hi = false -> get_sign hi = false -> is_nan r = false ->
  is_nan (Math_min hi r) = false /\ (Math_min hi r <=? hi)%float = true.
Proof.
  intros Hhi Hshi Hr. unfold Math_min. rewrite Hhi, Hr, Hshi. simpl.
  destruct (hi <? r)%float eqn:E1; [by split; [|apply leb_refl]|].
  destruct (r <? hi)%float eqn:E2; (split; [exact Hr | by apply not_ltb_leb]).
Qed.

Lemma Math_max_ge (lo m : float) :
  is_nan lo = false -> get_sign lo = false -> is_nan m = false ->
  (lo <=? Math_max lo m)%float = true
  /\ (Math_max lo m = lo \/ Math_max lo m = m).
Proof.
  intros Hlo Hslo Hm. unfold Math_max. rewrite Hlo, Hm, Hslo. simpl.
  destruct (lo <? m)%float eqn:E1; [by split; [apply ltb_leb | right]|].
  destruct (m <? lo)%float eqn:E2; (split; [by apply leb_refl | by left]).
Qed.

Lemma clamp_in_range (lo hi r : float) :
  is_nan lo = false -> is_nan hi = false -> get_sign lo = false -> get_sign hi = false ->
  (lo <=? hi)%float = true ->
  is_nan r = false ->
  (lo <=? Math_max lo (Math_min hi r))%float = true
  /\ (Math_max lo (Math_min hi r) <=? hi)%float = true.
Proof.
  intros Hlo Hhi Hslo Hshi Hle Hr.
  destruct (Math_min_le hi r Hhi Hshi Hr) as [Hm Hmle].
  destruct (Math_max_ge lo _ Hlo Hslo Hm) as [Hge [Heq | Heq]]; rewrite Heq in *.
  - split; [by apply leb_refl | exact Hle].
  - split; [exact Hge | exact Hmle].
Qed.

Lemma SFcompare_refl (a : spec_float) : a <> S754_nan -> SFcompare a a = Some Eq.
Proof.
  destruct a as [s|s| |s m e]; simpl; intros Ha; try congruence.
  - by destruct s.
  - f_equal. destruct s; rewrite Z.compare_refl, Pos.compare_cont_refl; reflexivity.
Qed.

Lemma leb_not_nan_r (lo x : float) : (lo <=? x)%float = true -> is_nan x = false.
Proof.
  unfold is_nan. rewrite FloatAxioms.leb_spec, FloatAxioms.eqb_spec. unfold SFleb, SFeqb.
  intros Hle. rewrite SFcompare_refl; [reflexivity|].
  intros Hnan. rewrite Hnan in Hle. by destruct (Prim2SF lo).
Qed.

Lemma between_regular (lo hi x : float) (ml mh : positive) (el eh : Z) :
  Prim2SF lo = S754_finite false ml el ->
  Prim2SF hi = S754_finite false mh eh ->
  (lo <=? x)%float = true ->
  (x <=? hi)%float = true ->
  is_zero x = false /\ is_infinity x = false.
Proof.
  intros Hlo Hhi. unfold is_zero, is_infinity.
  rewrite !FloatAxioms.leb_spec, !FloatAxioms.eqb_spec, FloatAxioms.abs_spec, Hlo, Hhi.
  change (Prim2SF zero) with (S754_zero false).
  change (Prim2SF infinity) with (S754_infinity false).
  destruct (Prim2SF x) as [s|s| |s m e]; simpl; try destruct s; try discriminate; by intros.
Qed.

(** A rate or a pitch in its range is truthy and is written to the storage
    and read back as it is. *)
Lemma in_range_scalar (lo : float) (ml : positive) (el : Z) (v : value) :
  Prim2SF lo = S754_finite false ml el ->
  match v with VNum x => (lo <=? x)%float && (x <=? 2.0)%float | _ => false end = true ->
  truthy v = true /\ json_scalar v = v.
Proof.
  intros Hlo. destruct v as [| | |x| | | |]; try discriminate.
  intros [Hge Hle]%andb_prop.
  destruct (between_regular lo 2.0 x ml _ el _ Hlo eq_refl Hge Hle) as [Hz Hi].
  pose proof (leb_not_nan_r _ _ Hge) as Hn.
  simpl. by rewrite Hz, Hi, Hn.
Qed.

Lemma rate_in_range_scalar (v : value) :
  rate_in_range v = true -> truthy v = true /\ json_scalar v = v.
Proof. by eapply (in_range_scalar 0.1). Qed.

Lemma pitch_in_range_scalar (v : value) :
  pitch_in_range v = true -> truthy v = true /\ json_scalar v = v.
Proof. by eapply (in_range_scalar 0.5). Qed.

(** *** setSpeechRate and setSpeechPitch *)

Lemma saveUserPreferences_same {P : Platform} : respects same_recording saveUserPreferences.
Proof. unfold saveUserPreferences. respects_later. Qed.

(** What the two setters store. *)
Lemma setSpeechRate_stores {P : Platform} (rate : float) (w : World) :
  speechRate (voice (snd (setSpeechRate rate w))) = VNum (Math_max 0.1 (Math_min 2.0 rate))
  /\ speechPitch (voice (snd (setSpeechRate rate w))) = speechPitch (voice w).
Proof.
  unfold setSpeechRate, bind at 1, get. simpl.
  unfold bind, set_speech, modify. simpl.
  match goal with
  | |- context [saveUserPreferences ?w1] =>
      destruct (saveUserPreferences_same w1) as (-> & _)
  end.
  by split.
Qed.

Lemma setSpeechPitch_stores {P : Platform} (pitch : float) (w : World) :
  speechPitch (voice (snd (setSpeechPitch pitch w))) = VNum (Math_max 0.5 (Math_min 2.0 pitch))
  /\ speechRate (voice (snd (setSpeechPitch pitch w))) = speechRate (voice w).
Proof.
  unfold setSpeechPitch, bind at 1, get. simpl.
  unfold bind, set_speech, modify. simpl.
  match goal with
  | |- context [saveUserPreferences ?w1] =>
      destruct (saveUserPreferences_same w1) as (-> & _)
  end.
  by split.
Qed.

(** For every argument that is a number other than NaN, the stored rate
    lies in [0.1, 2.0] and the stored pitch in [0.5, 2.0]. *)
Lemma setters_clamp {P : Platform} (x : float) (w : World) :
  is_nan x = false ->
  rate_in_range (speechRate (voice (snd (setSpeechRate x w)))) = true
  /\ pitch_in_range (speechPitch (voice (snd (setSpeechPitch x w)))) = true.
Proof.
  intros Hx.
  destruct (setSpeechRate_stores x w) as [-> _].
  destruct (setSpeechPitch_stores x w) as [-> _].
  unfold rate_in_range, pitch_in_range.
  destruct (clamp_in_range 0.1 2.0 x) as [-> ->]; try reflexivity; [exact Hx|].
  destruct (clamp_in_range 0.5 2.0 x) as [-> ->]; try reflexivity; [exact Hx|].
  by split.
Qed.

(** *** The settings in the states that the service reaches *)

Section Settings.
Context {B : Builtins} {P : Platform}.

Lemma saveUserPreferences_in_range (w : World) :
  settings_in_range w -> settings_in_range (snd (saveUserPreferences w)).
Proof.
  intros (Hr & Hp & Hs).
  destruct (rate_in_range_scalar _ Hr) as [_ Hjr].
  destruct (pitch_in_range_scalar _ Hp) as [_ Hjp].
  unfold saveUserPreferences, try_catch, bind, get, platform_call, modify. simpl.
  destruct (setItem _); simpl.
  - by repeat split.
  - repeat split; try done.
    unfold stored_in_range. simpl. rewrite lookup_insert_eq.
    eexists. split; [reflexivity|]. rewrite Hjr, Hjp.
    unfold obj_get. simpl. by split.
Qed.

Lemma setSpeechRate_in_range (x : float) (w : World) :
  is_nan x = false -> settings_in_range w -> settings_in_range (snd (setSpeechRate x w)).
Proof.
  intros Hx (Hr & Hp & Hs).
  unfold setSpeechRate, bind at 1, get. simpl. unfold bind at 1, set_speech, modify. simpl.
  apply saveUserPreferences_in_range. repeat split; try done. simpl.
  by destruct (clamp_in_range 0.1 2.0 x) as [-> ->].
Qed.

Lemma setSpeechPitch_in_range (x : float) (w : World) :
  is_nan x = false -> settings_in_range w -> settings_in_range (snd (setSpeechPitch x w)).
Proof.
  intros Hx (Hr & Hp & Hs).
  unfold setSpeechPitch, bind at 1, get. simpl. unfold bind at 1, set_speech, modify. simpl.
  apply saveUserPreferences_in_range. repeat split; try done. simpl.
  by destruct (clamp_in_range 0.5 2.0 x) as [-> ->].
Qed.

Lemma loadUserPreferences_in_range (w : World) :
  settings_in_range w -> settings_in_range (snd (loadUserPreferences w)).
Proof.
  intros (Hr & Hp & Hs).
  unfold loadUserPreferences, try_catch, bind at 1, platform_call. simpl.
  destruct (getItem _); simpl; [by repeat split|].
  unfold bind at 1, get. simpl.
  unfold stored_in_range in Hs.
  destruct (storage w !! preferences_key) as [preferences|] eqn:Hl; simpl.
  2: { repeat split; simpl; try done. unfold stored_in_range. simpl. by rewrite Hl. }
  destruct Hs as (o & -> & Hro & Hpo).
  destruct (rate_in_range_scalar _ Hro) as [Htr _].
  destruct (pitch_in_range_scalar _ Hpo) as [Htp _].
  unfold bind, member, ret, set_speech, modify, js_or. simpl. rewrite Htr, Htp.
  repeat split; try done. unfold stored_in_range. simpl. rewrite Hl. eauto.
Qed.

(** [initialize] loads the stored preferences, and nothing else of it
    touches the settings. *)
Lemma initialize_in_range (w : World) :
  settings_in_range w -> settings_in_range (snd (initialize w)).
Proof.
  intros Hw. unfold initialize, bind at 1, platform_ask. simpl.
  destruct (requestPermissionsAsync _) as [status|e]; simpl; [|exact Hw].
  destruct (negb (String.eqb status "granted")); simpl; [exact Hw|].
  unfold bind at 1, platform_call. simpl.
  destruct (setAudioModeAsync _); simpl; [exact Hw|].
  unfold bind at 1.
  match goal with
  | |- context [loadUserPreferences ?w1] =>
      pose proof (loadUserPreferences_in_range w1 Hw) as Hl;
      destruct (loadUserPreferences w1) as [[[]|e] w2]; exact Hl
  end.
Qed.

Lemma settings_step_in_range (c : settings_call) (w : World) :
  not_NaN c = true -> settings_in_range w -> settings_in_range (snd (settings_step c w)).
Proof.
  destruct c as [x|x|]; simpl; intros Hc Hw.
  - apply setSpeechRate_in_range; [by apply negb_true_iff|done].
  - apply setSpeechPitch_in_range; [by apply negb_true_iff|done].
  - by apply loadUserPreferences_in_range.
Qed.

(** In every state that the service reaches from one whose settings are in
    range by calls of the setters with numbers other than NaN and by loading
    the stored preferences, the settings are in range. *)
Lemma settings_run_in_range (calls : list settings_call) (w : World) :
  forallb not_NaN calls = true -> settings_in_range w -> settings_in_range (settings_run calls w).
Proof.
  revert w. induction calls as [|c calls IH]; intros w Hc Hw; [done|].
  apply andb_prop in Hc as [Hc Hcs]. simpl.
  apply IH; [done|]. by apply settings_step_in_range.
Qed.

End Settings.

Lemma number_or_not_nan (x d : float) : is_nan d = false -> is_nan (number_or x d) = false.
Proof.
  intros Hd. unfold number_or. simpl. destruct (is_nan x) eqn:Hx.
  - by rewrite orb_true_r.
  - by destruct (is_zero x).
Qed.

(** A configuration that [validateConfig] accepts starts the service with
    settings in range. *)
Lemma initial_world_in_range (pe : process_env) :
  validateConfig (ENV pe) = [] -> settings_in_range (initial_world (E := ENV pe)).
Proof.
  unfold validateConfig. simpl.
  pose proof (number_or_not_nan (parseFloat_DEFAULT_SPEECH_RATE pe) 1.0 eq_refl) as Hr.
  pose proof (number_or_not_nan (parseFloat_DEFAULT_SPEECH_PITCH pe) 1.0 eq_refl) as Hp.
  destruct (_ <? 0.1)%float eqn:E1; [discriminate|].
  destruct (2.0 <? number_or (parseFloat_DEFAULT_SPEECH_RATE pe) _)%float eqn:E2; [discriminate|].
  destruct (_ <? 0.5)%float eqn:E3; [discriminate|].
  destruct (2.0 <? number_or (parseFloat_DEFAULT_SPEECH_PITCH pe) _)%float eqn:E4; [discriminate|].
  intros _. repeat split; simpl.
  - by rewrite !not_ltb_leb.
  - by rewrite !not_ltb_leb.
Qed.

Example settings_run_example :
  validateConfig example_env = []
  /\ settings_in_range
       (settings_run (B := example_builtins)
          (P := example_platform (HttpResponse 200 VNull) (Return "") None)
          [SetSpeechRate 5.0; LoadUserPreferences; SetSpeechPitch (-1.0); SetSpeechRate infinity]
          (initial_world (E := example_env))).
Proof.
  split; [reflexivity|].
  apply settings_run_in_range; [reflexivity|].
  by apply (initial_world_in_range (ProcessEnv (Some "sk-test") nan nan None)).
Qed.

(** C10, at the argument NaN. [setSpeechRate(NaN)] stores NaN as the speech
    rate and [setSpeechPitch(NaN)] stores NaN as the speech pitch: [Math.min]
    and [Math.max] yield NaN when an argument is NaN, so the stored value lies
    in neither interval. *)
Theorem setters_store_NaN {P : Platform} (w : World) :
  speechRate (voice (snd (setSpeechRate nan w))) = VNum nan
  /\ rate_in_range (speechRate (voice (snd (setSpeechRate nan w)))) = false
  /\ speechPitch (voice (snd (setSpeechPitch nan w))) = VNum nan
  /\ pitch_in_range (speechPitch (voice (snd (setSpeechPitch nan w)))) = false.
Proof.
  destruct (setSpeechRate_stores nan w) as [-> _].
  destruct (setSpeechPitch_stores nan w) as [-> _].
  repeat split; reflexivity.
Qed.

(** * Further properties of the code *)

(** ** The form *)

Section FormFrame.
Context {B : Builtins}.

Lemma setField_handleFieldChange (st : DynamicForm_state) (k : string) (rest : list string)
    (leaf : value) :
  setField st k rest leaf = handleFieldChange st k (nested_write (obj_get (formData st) k) rest leaf).
Proof. unfold setField. by rewrite FormField_edit_nested_write. Qed.

Lemma FormField_value_app (p q : list string) :
  forall v : value, FormField_value v (p ++ q) = FormField_value (FormField_value v p) q.
Proof. induction p as [|k p IH]; intros v; simpl; [reflexivity | apply IH]. Qed.

Lemma nested_write_sibling (o : ValueMap) (c s : string) (r q : list string) (leaf : value)
    (p : list string) :
  forall v : value,
    FormField_value v p = VObj o ->
    s ≠ c ->
    FormField_value (nested_write v (p ++ c :: r) leaf) (p ++ s :: q)
    = FormField_value (obj_get o s) q.
Proof.
  induction p as [|k p IH]; intros v Hv Hne; simpl in *.
  - subst v. simpl. by rewrite obj_get_insert_ne.
  - rewrite obj_get_insert_eq. by apply IH.
Qed.

(** X1. A write at a path below the top-level field [k], of any depth,
    leaves what is read at every path below every other top-level field as
    it was, and leaves the validation error of every other field as it
    was. *)
Theorem setField_other_fields (st : DynamicForm_state) (k k' : string) (rest rest' : list string)
    (leaf : value) :
  k ≠ k' ->
  readField (setField st k rest leaf) k' rest' = readField st k' rest'
  /\ validationErrors (setField st k rest leaf) !! k' = validationErrors st !! k'.
Proof.
  intros Hne. rewrite setField_handleFieldChange. split.
  - unfold readField. simpl. by rewrite obj_get_insert_ne.
  - simpl. destruct (truthy _); [by rewrite lookup_insert_ne | reflexivity].
Qed.

(** X2. When the value at the path [k :: p] is an object, a write at a path
    that goes on below it with the key [c] leaves what is read at every path
    that goes on below it with another key [s] as it was: the siblings of
    every level of a nested field are kept. *)
Theorem setField_keeps_siblings (st : DynamicForm_state) (k c s : string) (p r q : list string)
    (o : ValueMap) (leaf : value) :
  readField st k p = VObj o ->
  s ≠ c ->
  readField (setField st k (p ++ c :: r) leaf) k (p ++ s :: q) = readField st k (p ++ s :: q).
Proof.
  unfold readField. intros Hp Hne.
  rewrite setField_formData, obj_get_insert_eq.
  rewrite (nested_write_sibling o c s r q leaf p _ Hp Hne).
  rewrite FormField_value_app, Hp. reflexivity.
Qed.

(** The objects that a write creates on its way down. *)
Lemma nested_write_fresh (p : list string) (leaf : value) :
  forall v : value,
    v = VUndefined \/ v = VNull ->
    nested_write v p leaf = foldr (fun k acc => VObj {[ k := acc ]}) leaf p.
Proof.
  induction p as [|k p IH]; intros v Hv; simpl; [reflexivity|].
  rewrite (IH (get_member v k)); [|by destruct Hv as [-> | ->]; left].
  by destruct Hv as [-> | ->].
Qed.

(** X3. The first write below a top-level field that holds nothing
    creates every object on the way: afterwards the field holds nested
    objects of one key each, with the written value at the end. *)
Theorem setField_creates_objects (st : DynamicForm_state) (k : string) (rest : list string)
    (leaf : value) :
  formData st !! k = None ->
  inherited k = false ->
  formData (setField st k rest leaf) !! k
  = Some (foldr (fun k' acc => VObj {[ k' := acc ]}) leaf rest).
Proof.
  intros Hk Hi. rewrite setField_formData, lookup_insert_eq.
  rewrite nested_write_fresh; [reflexivity|].
  left. unfold obj_get. by rewrite Hk, Hi.
Qed.

End FormFrame.

Lemma setField_other_fields_witness :
  readField (B := example_builtins)
    (setField (B := example_builtins) (form_of {[ "name" := VStr "Ann" ]}) "address" ["city"]
       (VStr "Oslo")) "name" []
  = VStr "Ann".
Proof.
  refine (eq_trans (proj1 (setField_other_fields (B := example_builtins)
            (form_of {[ "name" := VStr "Ann" ]}) "address" "name" ["city"] [] (VStr "Oslo") _)) _).
  - discriminate.
  - reflexivity.
Defined.

Lemma setField_keeps_siblings_witness :
  readField (B := example_builtins)
    (setField (B := example_builtins)
       (form_of {[ "address" := VObj {[ "geo" := VObj {[ "lat" := VNum 1; "lon" := VNum 2 ]} ]} ]})
       "address" ["geo"; "lat"] (VNum 3)) "address" ["geo"; "lon"]
  = VNum 2.
Proof.
  refine (eq_trans (setField_keeps_siblings (B := example_builtins)
            (form_of {[ "address" := VObj {[ "geo" := VObj {[ "lat" := VNum 1; "lon" := VNum 2 ]} ]} ]})
            "address" "lat" "lon" ["geo"] [] [] {[ "lat" := VNum 1; "lon" := VNum 2 ]} (VNum 3) _ _) _).
  - reflexivity.
  - discriminate.
  - reflexivity.
Defined.

Lemma setField_creates_objects_witness :
  formData (setField (B := example_builtins) empty_form "address" ["geo"; "city"] (VStr "Oslo"))
    !! "address"
  = Some (VObj {[ "geo" := VObj {[ "city" := VStr "Oslo" ]} ]}).
Proof.
  apply (setField_creates_objects (B := example_builtins) empty_form "address" ["geo"; "city"]
           (VStr "Oslo")); reflexivity.
Defined.



(** ** Validation and editing *)

Lemma required_message_truthy (k : string) : truthy (VStr (k +:+ " is required")) = true.
Proof. by destruct k. Qed.

Lemma field_fails_insert_ne (data : ValueMap) (k : string) (v : value) (f : field) :
  name f ≠ k -> field_fails (<[k := v]> data) f = field_fails data f.
Proof. intros Hne. unfold field_fails. by rewrite obj_get_insert_ne. Qed.

Lemma existsb_ext_in {A} (f g : A -> bool) (l : list A) :
  (forall a, a ∈ l -> f a = g a) -> existsb f l = existsb g l.
Proof.
  induction l as [|a l IH]; intros Hfg; simpl; [reflexivity|].
  rewrite (Hfg a), IH; [reflexivity| |by left]. intros b Hb. apply Hfg. by right.
Qed.

(** X4. The verdict of [validateForm] on a field depends on the value of
    that field only: after an edit of the top-level field [k], what is
    reported for every other field is what was reported before, and when the
    value written is truthy nothing is reported for [k]. *)
Theorem validation_after_edit (sch : schema) (st : DynamicForm_state) (k : string) (v : value) :
  (forall k', k' ≠ k ->
     validation_errors sch (formData (handleFieldChange st k v)) !! k'
     = validation_errors sch (formData st) !! k')
  /\ (truthy v = true -> validation_errors sch (formData (handleFieldChange st k v)) !! k = None).
Proof.
  split.
  - intros k' Hne. rewrite !validation_errors_lookup. simpl.
    erewrite existsb_ext_in; [reflexivity|]. intros f _. simpl.
    case_bool_decide as Hk; [|reflexivity]. simpl.
    apply field_fails_insert_ne. congruence.
  - intros Hv. rewrite validation_errors_lookup. simpl.
    assert (existsb (fun f => bool_decide (name f = k) && field_fails (<[k := v]> (formData st)) f)
              (default [] (fields sch)) = false) as ->; [|reflexivity].
    apply not_true_iff_false. intros (f & _ & Hf)%existsb_exists.
    apply andb_true_iff in Hf as [Hk Hf]. apply bool_decide_eq_true in Hk.
    rewrite field_fails_falsy, Hk, obj_get_insert_eq, Hv in Hf.
    by rewrite andb_false_r in Hf.
Qed.

(** X5. Once [validateForm] has reported a field, an edit of that field
    replaces its message by [null], which the form reads as no error, and
    keeps the message of every other field. *)
Theorem edit_clears_reported_error (sch : schema) (st : DynamicForm_state) (k : string) (v : value) :
  k ∈ dom (validation_errors sch (formData st)) ->
  let reported := fst (validateForm sch st) in
  validationErrors (handleFieldChange reported k v) !! k = Some VNull
  /\ truthy (obj_get (validationErrors (handleFieldChange reported k v)) k) = false
  /\ forall k', k' ≠ k ->
       validationErrors (handleFieldChange reported k v) !! k' = validationErrors reported !! k'.
Proof.
  intros Hk. simpl.
  apply elem_of_dom in Hk as [msg Hmsg].
  assert (truthy (obj_get (validation_errors sch (formData st)) k) = true) as ->.
  { unfold obj_get. rewrite Hmsg. rewrite validation_errors_lookup in Hmsg.
    destruct (_ && _); [|discriminate]. injection Hmsg as <-.
    apply required_message_truthy. }
  rewrite obj_get_insert_eq, lookup_insert_eq. repeat split.
  intros k' Hne. by rewrite lookup_insert_ne.
Qed.

Lemma edit_clears_reported_error_witness :
  validationErrors
    (handleFieldChange (fst (validateForm one_field_schema empty_form)) "name" (VStr "Ann"))
    !! "name"
  = Some VNull.
Proof.
  refine (proj1 (edit_clears_reported_error one_field_schema empty_form "name" (VStr "Ann") _)).
  apply elem_of_dom. eexists. vm_compute. reflexivity.
Defined.

Lemma validation_after_edit_witness :
  validation_errors one_field_schema
    (formData (handleFieldChange empty_form "name" (VStr "Ann"))) !! "name" = None.
Proof.
  apply (proj2 (validation_after_edit one_field_schema empty_form "name" (VStr "Ann"))).
  reflexivity.
Defined.

(** X6. A read of a form that holds no property of the name of a field
    finds the member that every object inherits when the field is named after
    one ([toString], [constructor], ...): such a required field is not
    reported while it is empty. *)
Theorem validateForm_skips_inherited (sch : schema) (st : DynamicForm_state) (k : string) :
  inherited k = true ->
  formData st !! k = None ->
  validation_errors sch (formData st) !! k = None
  /\ validationErrors (fst (validateForm sch st)) !! k = None.
Proof.
  intros Hi Hk.
  assert (validation_errors sch (formData st) !! k = None) as Hnone; [|by split].
  rewrite validation_errors_lookup.
  assert (existsb (fun f => bool_decide (name f = k) && field_fails (formData st) f)
            (default [] (fields sch)) = false) as ->; [|reflexivity].
  apply not_true_iff_false. intros (f & _ & Hf)%existsb_exists.
  apply andb_true_iff in Hf as [Hn Hf]. apply bool_decide_eq_true in Hn.
  rewrite field_fails_falsy, Hn in Hf. unfold obj_get in Hf. rewrite Hk, Hi in Hf.
  by rewrite andb_false_r in Hf.
Qed.

Lemma validateForm_skips_inherited_witness :
  validation_errors (Schema None None (Some [text_field "constructor" true])) ∅ !! "constructor"
  = None
  /\ snd (validateForm (Schema None None (Some [text_field "constructor" true])) empty_form) = true.
Proof.
  split; [|reflexivity].
  apply (proj1 (validateForm_skips_inherited
                  (Schema None None (Some [text_field "constructor" true])) empty_form
                  "constructor" eq_refl eq_refl)).
Defined.



(** ** The requests of the application *)

Section Requests.
Context {B : Builtins} {P : Platform}.

Lemma sendChatMessage_run (message targetModel targetSchema conversationHistory currentData : value)
    (w : World) :
  sendChatMessage message targetModel targetSchema conversationHistory currentData w
  = (api_outcome "Failed to process chat: "
       (http (trace w) "/chat"
          (chat_body message targetModel targetSchema conversationHistory currentData)),
     set_trace (fun t => t ++ [EvPost "/chat"
       (chat_body message targetModel targetSchema conversationHistory currentData)]) w).
Proof.
  unfold sendChatMessage, try_catch, bind, apiClient_post, throw, ret, api_outcome, chat_body.
  destruct (http _ _ _) as [st d|m]; [destruct (_ && _)|]; reflexivity.
Qed.

Lemma forwardToExternalApi_run (apiUrl : string) (method data headers timeout : value) (w : World) :
  forwardToExternalApi apiUrl method data headers timeout w
  = (api_outcome forward_failed
       (http (trace w) "/forward" (forward_body apiUrl method data headers timeout)),
     set_trace (fun t => t ++ [EvPost "/forward"
       (forward_body apiUrl method data headers timeout)]) w).
Proof.
  unfold forwardToExternalApi, try_catch, bind, apiClient_post, throw, ret, api_outcome.
  destruct (http _ _ _) as [st d|m]; [destruct (_ && _)|]; reflexivity.
Qed.

(** X7. [sendChatMessage] sends exactly one request, to [/chat]; a
    conversation history and current data that the caller leaves out go out
    as [[]] and [null]. It returns the body of a 2xx answer as it is and
    throws an [Error] whose message starts with [Failed to process chat: ]
    on every other answer and when no answer arrives; it changes nothing
    else. *)
Theorem sendChatMessage_one_request (message targetModel targetSchema conversationHistory
    currentData : value) (w : World) :
  let body := chat_body message targetModel targetSchema conversationHistory currentData in
  let run := sendChatMessage message targetModel targetSchema conversationHistory currentData w in
  posts (trace (snd run)) = posts (trace w) ++ [("/chat", body)]
  /\ fst run = api_outcome "Failed to process chat: " (http (trace w) "/chat" body)
  /\ app (snd run) = app w /\ chat (snd run) = chat w
  /\ chat_body message targetModel targetSchema VUndefined VUndefined
     = chat_body message targetModel targetSchema (VArr []) VNull.
Proof.
  simpl. rewrite sendChatMessage_run. simpl. repeat split.
  unfold posts. by rewrite omap_app.
Qed.

Lemma handleFormSubmit_run (data : value) (w : World) :
  handleFormSubmit data w
  = (Return tt,
     match api_outcome forward_failed (http (trace w) "/forward" (submit_body data)) with
     | Return response =>
         set_app (fun a => AppState "results" (app_formData a) response false)
           (set_trace (fun t => t ++ [EvPost "/forward" (submit_body data)]) w)
     | Throw e =>
         set_app (fun a => AppState (currentView a) (app_formData a) (apiResults a) false)
           (set_trace (fun t => t ++ [EvPost "/forward" (submit_body data);
                                      EvAlert "Error" ("Failed to submit form: " +:+ error_message e)]) w)
     end).
Proof.
  unfold handleFormSubmit, try_finally, try_catch, bind at 1 2, setLoading, modify.
  rewrite forwardToExternalApi_run. unfold submit_body. simpl.
  destruct (api_outcome _ _) as [response|e]; simpl.
  - reflexivity.
  - unfold set_app, set_trace. simpl. by rewrite <- app_assoc.
Qed.

(** X8. [handleFormSubmit] never throws: whatever the server answers, it
    returns with the loading flag cleared, the ValueMap of App as it was,
    and exactly one request sent. When the server answers with a 2xx status,
    the body of the answer becomes the results of App, the results view is
    shown, and no alert is. *)
Theorem handleFormSubmit_returns (data : value) (w : World) :
  let w' := snd (handleFormSubmit data w) in
  fst (handleFormSubmit data w) = Return tt
  /\ loading (app w') = false
  /\ app_formData (app w') = app_formData (app w)
  /\ posts (trace w') = posts (trace w) ++ [("/forward", submit_body data)]
  /\ (forall st response,
        http (trace w) "/forward" (submit_body data) = HttpResponse st response ->
        (200 <= st < 300)%Z ->
        apiResults (app w') = response
        /\ currentView (app w') = "results"
        /\ trace w' = trace w ++ [EvPost "/forward" (submit_body data)]).
Proof.
  cbv zeta. rewrite handleFormSubmit_run. split; [reflexivity|].
  split; [by destruct (api_outcome _ _)|]. split; [by destruct (api_outcome _ _)|].
  split.
  - destruct (api_outcome _ _); cbn [snd trace set_app set_trace];
      unfold posts; rewrite omap_app; done.
  - intros st response Hhttp Hst. rewrite Hhttp. simpl.
    assert ((200 <=? st)%Z && (st <? 300)%Z = true) as -> by lia.
    by repeat split.
Qed.

(** X9. [handleSubmit] of the form forwards the ValueMap in one request
    when [validateForm] accepts it; when it does not, no request is sent,
    the alert [Validation Error] is shown and App is left as it was. On both
    paths the form keeps its ValueMap and shows the errors that
    [validateForm] found. *)
Theorem handleSubmit_forwards_valid (sch : schema) (st : DynamicForm_state) (w : World) :
  let run := handleSubmit sch st w in
  fst run = Return (fst (validateForm sch st))
  /\ posts (trace (snd run))
     = posts (trace w)
       ++ (if snd (validateForm sch st) then [("/forward", submit_body (VObj (formData st)))] else [])
  /\ (snd (validateForm sch st) = false ->
      trace (snd run) = trace w ++ [EvAlert "Validation Error" "Please fill in all required fields."]
      /\ app (snd run) = app w).
Proof.
  cbv zeta. unfold handleSubmit.
  assert (formData (fst (validateForm sch st)) = formData st) as Hdata by reflexivity.
  destruct (validateForm sch st) as [st' valid]. cbn [fst snd] in *.
  destruct valid.
  - unfold bind. rewrite handleFormSubmit_run, Hdata.
    destruct (api_outcome _ _); (split; [reflexivity|]); (split; [|discriminate]);
      cbn [snd trace set_app set_trace ret]; unfold posts; rewrite omap_app; done.
  - unfold bind, Alert_alert, emit, modify, ret. cbn [snd trace set_app set_trace].
    split; [reflexivity|]. split; [|done].
    unfold posts. rewrite omap_app. simpl. reflexivity.
Qed.

End Requests.

Lemma handleFormSubmit_returns_witness :
  apiResults (app (snd (handleFormSubmit (B := example_builtins)
    (P := example_platform (HttpResponse 200 (VObj {[ "success" := VBool true ]})) (Return "") None)
    (VObj {[ "name" := VStr "Ann" ]}) (initial_world (E := example_env)))))
  = VObj {[ "success" := VBool true ]}.
Proof.
  refine (proj1 (proj2 (proj2 (proj2 (proj2 (handleFormSubmit_returns (B := example_builtins)
    (P := example_platform (HttpResponse 200 (VObj {[ "success" := VBool true ]})) (Return "") None)
    (VObj {[ "name" := VStr "Ann" ]}) (initial_world (E := example_env))))))
    200%Z (VObj {[ "success" := VBool true ]}) eq_refl _)).
  lia.
Defined.



(** ** The chat *)

Section Chat.
Context {B : Builtins} {P : Platform}.

(** X10. [sendMessage] does nothing at all for a message that is blank
    after trimming, and nothing while an earlier message is loading.
    Otherwise it never throws and adds exactly two messages to the
    conversation: the message of the user and, after it, one message of the
    assistant (the answer, or the apology when the turn failed); it leaves the
    input empty and the loading flag cleared. *)
Theorem sendMessage_transcript (schema_prop currentData : value) (message : string) (w : World) :
  let run := sendMessage schema_prop currentData message w in
  if sendMessage_skips message w
  then run = (Return tt, w)
  else
    fst run = Return tt
    /\ (exists content timestamp,
          messages (chat (snd run))
          = messages (chat w) ++ [user_message message w; make_message "assistant" content timestamp])
    /\ inputText (chat (snd run)) = ""
    /\ isLoading (chat (snd run)) = false.
Proof.
  cbv zeta. destruct (sendMessage schema_prop currentData message w) as [r w'] eqn:Hrun.
  revert Hrun. unfold sendMessage_skips, sendMessage, bind at 1, get. cbv beta iota.
  destruct (String.eqb (trim message) "" || isLoading (chat w)); [by intros [= <- <-]|].
  unfold new_Date_toISOString, bind at 1.
  unfold try_finally, try_catch, bind, member, user_message. cbn -[sendChatMessage].
  destruct schema_prop; cbn -[sendChatMessage];
    try (intros [= <- <-]; repeat split; simpl; rewrite <- app_assoc; by eauto).
  all: rewrite sendChatMessage_run; simpl.
  all: destruct (api_outcome _ _) as [response|e]; simpl;
    try (intros [= <- <-]; repeat split; simpl; rewrite <- app_assoc; by eauto).
  all: destruct response; simpl;
    try (intros [= <- <-]; repeat split; simpl; rewrite <- app_assoc; by eauto).
  all: repeat match goal with
       | |- context [when ?b _] => destruct b; simpl
       end;
    intros [= <- <-]; repeat split; simpl; rewrite <- app_assoc; by eauto.
Qed.

(** X11. A turn of the chat sends exactly one request, which carries the
    whole conversation so far followed by the new message of the user, each
    message reduced to its role, content and timestamp, together with the
    schema and the current data. No request is sent for a message that
    [sendMessage] skips, nor when the schema is [null] or [undefined]. *)
Theorem sendMessage_request (schema_prop currentData : value) (message : string) (w : World) :
  posts (trace (snd (sendMessage schema_prop currentData message w)))
  = posts (trace w)
    ++ (if sendMessage_skips message w || nullish schema_prop then []
        else [("/chat", turn_body schema_prop currentData message w)]).
Proof.
  destruct (sendMessage schema_prop currentData message w) as [r w'] eqn:Hrun.
  revert Hrun. unfold sendMessage_skips, sendMessage, bind at 1, get. cbv beta iota.
  destruct (String.eqb (trim message) "" || isLoading (chat w));
    [intros [= <- <-]; simpl; by rewrite app_nil_r|].
  unfold new_Date_toISOString, bind at 1.
  unfold try_finally, try_catch, bind, member, turn_body, user_message. cbn -[sendChatMessage].
  destruct schema_prop; cbn -[sendChatMessage];
    try (intros [= <- <-]; simpl; unfold posts; rewrite omap_app; simpl; by rewrite app_nil_r).
  all: rewrite sendChatMessage_run; simpl.
  all: destruct (api_outcome _ _) as [response|e]; simpl;
    try (intros [= <- <-]; simpl; unfold posts; rewrite !omap_app; simpl;
         by rewrite ?app_nil_r).
  all: destruct response; simpl;
    try (intros [= <- <-]; simpl; unfold posts; rewrite !omap_app; simpl;
         by rewrite ?app_nil_r).
  all: repeat match goal with
       | |- context [when ?b _] => destruct b; simpl
       end;
    intros [= <- <-]; simpl; unfold posts; rewrite !omap_app; simpl; by rewrite ?app_nil_r.
Qed.

(** X12. When the request of a turn fails (the server answers with a status
    that is not 2xx, or does not answer), the turn changes nothing of App: the
    ValueMap, the results and the view stay. The conversation id, the
    follow-up questions and the completion flag stay too; the assistant's
    message is the apology that quotes the error, and one alert is shown. *)
Theorem sendMessage_failure (schema_prop currentData : value) (message : string) (w : World)
    (e : exn) :
  sendMessage_skips message w = false ->
  nullish schema_prop = false ->
  api_outcome "Failed to process chat: "
    (http (trace w) "/chat" (turn_body schema_prop currentData message w)) = Throw e ->
  let w' := snd (sendMessage schema_prop currentData message w) in
  app w' = app w
  /\ conversationId (chat w') = conversationId (chat w)
  /\ followUpQuestions (chat w') = followUpQuestions (chat w)
  /\ isComplete (chat w') = isComplete (chat w)
  /\ (exists timestamp,
        messages (chat w')
        = messages (chat w)
          ++ [user_message message w;
              make_message "assistant"
                (VStr ("Sorry, I encountered an error: " +:+ error_message e
                       +:+ ". Please try again.")) timestamp])
  /\ trace w'
     = trace w ++ [EvPost "/chat" (turn_body schema_prop currentData message w);
                   EvAlert "Error" "Failed to send message. Please try again."].
Proof.
  intros Hskip Hschema Hfail. cbv zeta.
  destruct (sendMessage schema_prop currentData message w) as [r w'] eqn:Hrun.
  revert Hrun. unfold sendMessage_skips in Hskip. unfold sendMessage, bind at 1, get.
  cbv beta iota. rewrite Hskip.
  unfold new_Date_toISOString, bind at 1.
  unfold try_finally, try_catch, bind, member. cbn -[sendChatMessage].
  unfold turn_body, user_message in *.
  destruct schema_prop; try discriminate Hschema; cbn -[sendChatMessage] in *.
  all: rewrite sendChatMessage_run; cbn -[api_outcome chat_body]; rewrite Hfail; simpl.
  all: intros [= <- <-]; simpl; repeat split; rewrite <- ?app_assoc; by eauto.
Qed.

End Chat.

Lemma sendMessage_failure_witness :
  app (snd (sendMessage (B := example_builtins)
              (P := example_platform (NetworkError "Network Error") (Return "") None)
              user_schema (app_formData (app ab_world)) "set b to 3" ab_world))
  = app ab_world.
Proof.
  refine (proj1 (sendMessage_failure (B := example_builtins)
            (P := example_platform (NetworkError "Network Error") (Return "") None)
            user_schema (app_formData (app ab_world)) "set b to 3" ab_world
            (Error "Failed to process chat: Network Error") _ _ _)).
  - vm_compute. reflexivity.
  - reflexivity.
  - reflexivity.
Defined.



(** ** The voice service: recording *)

Section Recording.
Context {P : Platform}.

(** X13. [startRecording] changes nothing and returns [undefined] when the
    service is recording already. Otherwise it either returns [true] with the
    service recording, or throws the error the recorder failed with and leaves
    the service idle: it never leaves the flag [isRecording] set after a
    failure. *)
Theorem startRecording_outcome (w : World) :
  let run := startRecording w in
  if vs_isRecording (voice w)
  then run = (Return VUndefined, w)
  else
    (fst run = Return (VBool true) /\ records (snd run)
     /\ trace (snd run) = trace w ++ [EvPrepareToRecord; EvStartRecording])
    \/ (exists e, fst run = Throw e
                  /\ vs_isRecording (voice (snd run)) = false
                  /\ recording (voice (snd run)) = false
                  /\ (prepareToRecordAsync (trace w) = Some e
                      \/ startAsync (trace w ++ [EvPrepareToRecord]) = Some e)).
Proof.
  cbv zeta. destruct (startRecording w) as [r w'] eqn:Hrun. revert Hrun.
  unfold startRecording, try_catch, bind at 1, get. cbv beta iota.
  destruct (vs_isRecording (voice w)) eqn:Hrec; [by intros [= <- <-]|].
  unfold bind, set_recording, modify, platform_call, throw, ret. simpl.
  destruct (prepareToRecordAsync (trace w)) as [e|] eqn:Hprep; simpl.
  { intros [= <- <-]. right. exists e. simpl. by repeat split; try left. }
  destruct (startAsync (trace w ++ [EvPrepareToRecord])) as [e|] eqn:Hstart; simpl.
  { intros [= <- <-]. right. exists e. simpl. by repeat split; try right. }
  intros [= <- <-]. left. simpl. repeat split. by rewrite <- app_assoc.
Qed.

(** X14. [stopRecording] changes nothing and returns [null] when the
    service is not recording. Otherwise the recorder is asked to stop once,
    and on both outcomes (the URI returned, or the error of the recorder
    thrown) the service is left idle: [isRecording] is cleared and the
    recording is dropped. *)
Theorem stopRecording_outcome (w : World) :
  let run := stopRecording w in
  if is_recording w
  then
    vs_isRecording (voice (snd run)) = false
    /\ recording (voice (snd run)) = false
    /\ trace (snd run) = trace w ++ [EvStopRecording]
    /\ fst run = match stopAndUnloadAsync (trace w) with
                 | Some e => Throw e
                 | None => Return (getURI (trace w ++ [EvStopRecording]))
                 end
  else run = (Return None, w).
Proof.
  cbv zeta. destruct (stopRecording w) as [r w'] eqn:Hrun. revert Hrun.
  unfold is_recording, stopRecording, try_catch, bind at 1, get. cbv beta iota.
  destruct (vs_isRecording (voice w)), (recording (voice w)); simpl;
    try by intros [= <- <-].
  unfold bind, set_recording, modify, platform_call, throw, ret, get. simpl.
  destruct (stopAndUnloadAsync (trace w)) as [e|]; simpl; intros [= <- <-]; by repeat split.
Qed.

(** X15. A recording that the recorder starts and stops without an error
    makes a round trip: [startRecording] followed by [stopRecording], from an
    idle service, asks the recorder to prepare, to start and to stop, once
    each and in this order, returns the URI the recorder reports, and leaves
    the service idle again. *)
Theorem record_round_trip (w : World) (uri : string) :
  vs_isRecording (voice w) = false ->
  prepareToRecordAsync (trace w) = None ->
  startAsync (trace w ++ [EvPrepareToRecord]) = None ->
  stopAndUnloadAsync (trace w ++ [EvPrepareToRecord; EvStartRecording]) = None ->
  getURI (trace w ++ [EvPrepareToRecord; EvStartRecording; EvStopRecording]) = Some uri ->
  let run := bind startRecording (fun _ => stopRecording) w in
  fst run = Return (Some uri)
  /\ trace (snd run) = trace w ++ [EvPrepareToRecord; EvStartRecording; EvStopRecording]
  /\ vs_isRecording (voice (snd run)) = false
  /\ recording (voice (snd run)) = false.
Proof.
  intros Hidle Hprep Hstart Hstop Huri. cbv zeta.
  unfold startRecording, stopRecording, try_catch, bind, get, set_recording, modify,
    platform_call, throw, ret.
  simpl. rewrite Hidle. simpl. rewrite Hprep. simpl. rewrite Hstart. simpl.
  rewrite <- !app_assoc. simpl. rewrite Hstop. simpl.
  rewrite <- !app_assoc. simpl. rewrite Huri. simpl.
  repeat split.
Qed.

End Recording.

Lemma record_round_trip_witness :
  fst (bind (startRecording (P := example_platform (NetworkError "") (Return "") None))
         (fun _ => stopRecording (P := example_platform (NetworkError "") (Return "") None))
         (initial_world (E := example_env)))
  = Return (Some recording_uri).
Proof.
  refine (proj1 (record_round_trip (P := example_platform (NetworkError "") (Return "") None)
                   (initial_world (E := example_env)) recording_uri _ _ _ _ _));
    reflexivity.
Defined.



(** ** The voice service: transcription *)

Section Transcription.
Context {B : Builtins} {E : Env} {P : Platform}.

(** X16. [transcribeAudio] needs a URI and an API key before it reaches
    the network. Without a URI ([null], [undefined] or the empty string) it
    throws [No audio URI provided] at once: no file is read or deleted and no
    request is made. With a URI but no API key configured, the recorded file
    is read, its deletion is attempted, no request is made, and the call
    throws: the error of the read when the read failed, the configuration
    error otherwise. *)
Theorem transcribeAudio_needs_uri_and_key (audioUri : option string) (w : World) :
  let run := transcribeAudio audioUri w in
  (no_uri audioUri = true -> run = (Throw (Error "No audio URI provided"), w))
  /\ (forall uri,
        audioUri = Some uri ->
        uri ≠ "" ->
        OPENAI_API_KEY = "" ->
        fst run = match readAsStringAsync (trace w) uri with
                  | Return _ => Throw key_missing
                  | Throw e => Throw e
                  end
        /\ exists done, trace (snd run) = trace w ++ [EvReadFile uri; EvDeleteFile uri done]).
Proof.
  cbv zeta. split.
  - intros Hno. unfold transcribeAudio, try_catch, bind, throw, when. by rewrite Hno.
  - intros uri -> Huri Hkey. apply String.eqb_neq in Huri.
    unfold transcribeAudio, try_catch, bind, throw, when, platform_ask, FileSystem_deleteAsync,
      no_uri, key_missing, ret.
    simpl. rewrite Huri, Hkey. simpl.
    destruct (readAsStringAsync (trace w) uri) as [content|e]; simpl;
      destruct (deleteAsync _ uri); simpl; (split; [reflexivity|]);
      eexists; simpl; rewrite <- app_assoc; reflexivity.
Qed.

(** X17. Once the recorded file is read and the endpoint has answered:
    when the answer is a success, [transcribeAudio] reads its text, deletes
    the file and returns the text, trimmed, after exactly these calls in this
    order: the read, the request, the text of the answer, the deletion; when
    the answer is a failure, it throws [Transcription failed: <status>
    <statusText>] without reading the body, and the deletion of the file is
    attempted. *)
Theorem transcribeAudio_answered (uri content : string) (response : fetch_response) (w : World) :
  uri ≠ "" ->
  OPENAI_API_KEY ≠ "" ->
  readAsStringAsync (trace w) uri = Return content ->
  fetch (trace w ++ [EvReadFile uri]) uri = Return response ->
  let run := transcribeAudio (Some uri) w in
  (forall text,
     ok response = true ->
     response_text (trace w ++ [EvReadFile uri; EvFetch whisper_url uri]) = Return text ->
     deleteAsync (trace w ++ [EvReadFile uri; EvFetch whisper_url uri; EvResponseText]) uri = None ->
     fst run = Return (trim text)
     /\ trace (snd run)
        = trace w ++ [EvReadFile uri; EvFetch whisper_url uri; EvResponseText;
                      EvDeleteFile uri true]
     /\ uri ∉ files (snd run))
  /\ (ok response = false ->
      fst run = Throw (Error ("Transcription failed: " +:+ pretty (status response) +:+ " "
                              +:+ statusText response))
      /\ exists done,
           trace (snd run)
           = trace w ++ [EvReadFile uri; EvFetch whisper_url uri; EvDeleteFile uri done]).
Proof.
  intros Huri Hkey Hread Hfetch. cbv zeta.
  apply String.eqb_neq in Huri. apply String.eqb_neq in Hkey.
  unfold transcribeAudio, try_catch, bind, throw, when, platform_ask, FileSystem_deleteAsync,
    no_uri, ret.
  simpl. rewrite Huri, Hkey, Hread. simpl. rewrite Hfetch. simpl. split.
  - intros text Hok Htext Hdel. rewrite Hok. simpl.
    rewrite <- ?app_assoc. simpl. rewrite Htext. simpl.
    rewrite <- ?app_assoc. simpl. rewrite Hdel. simpl.
    rewrite <- ?app_assoc. simpl. repeat split. file_gone.
  - intros Hok. rewrite Hok. simpl. rewrite <- ?app_assoc. simpl.
    destruct (deleteAsync _ uri); simpl; (split; [reflexivity|]);
      eexists; rewrite <- ?app_assoc; reflexivity.
Qed.

End Transcription.

Lemma transcribeAudio_needs_uri_and_key_witness :
  fst (transcribeAudio (B := example_builtins) (E := ENV (ProcessEnv None nan nan None))
         (P := example_platform (NetworkError "") (Return "") None)
         (Some recording_uri) recorded_world)
  = Throw key_missing.
Proof.
  refine (proj1 (proj2 (transcribeAudio_needs_uri_and_key (B := example_builtins)
                   (E := ENV (ProcessEnv None nan nan None))
                   (P := example_platform (NetworkError "") (Return "") None)
                   (Some recording_uri) recorded_world) recording_uri eq_refl _ _)).
  - discriminate.
  - reflexivity.
Defined.

Lemma transcribeAudio_answered_witness :
  fst (transcribeAudio (B := example_builtins) (E := example_env)
         (P := example_platform (NetworkError "") (Return "") None)
         (Some recording_uri) recorded_world)
  = Return "hello".
Proof.
  refine (proj1 (proj1 (transcribeAudio_answered (B := example_builtins) (E := example_env)
                   (P := example_platform (NetworkError "") (Return "") None)
                   recording_uri "" (FetchResponse true 200 "OK") recorded_world
                   _ _ _ _) "hello" _ _ _)); try reflexivity; discriminate.
Defined.



(** ** The voice service: speech *)

Section Speech.
Context {B : Builtins} {P : Platform}.

(** X18. The flag [isPlaying] does not stay set after a failure of the
    speech engine. [stopSpeaking] never throws and always leaves the flag
    cleared, also when [Speech.stop] fails, and asks the engine to stop
    exactly when the flag was set. [speak] clears the flag before it throws
    what [Speech.stop] or [Speech.speak] failed with, and does nothing at all
    for a text that is empty or blank. *)
Theorem isPlaying_cleared (text : string) (options : speak_options) (w : World) :
  fst (stopSpeaking w) = Return tt
  /\ isPlaying (voice (snd (stopSpeaking w))) = false
  /\ trace (snd (stopSpeaking w))
     = trace w ++ (if isPlaying (voice w) then [EvSpeechStop] else [])
  /\ (forall e, fst (speak text options w) = Throw e ->
                isPlaying (voice (snd (speak text options w))) = false)
  /\ (no_text text = true -> speak text options w = (Return tt, w)).
Proof.
  split; [|split; [|split; [|split]]].
  - unfold stopSpeaking, try_catch, bind, get, when, platform_call, set_isPlaying, modify, ret.
    destruct (isPlaying (voice w)); simpl; [destruct (Speech_stop _)|]; reflexivity.
  - unfold stopSpeaking, try_catch, bind, get, when, platform_call, set_isPlaying, modify, ret.
    destruct (isPlaying (voice w)) eqn:Hp; simpl; [destruct (Speech_stop _)|]; done.
  - unfold stopSpeaking, try_catch, bind, get, when, platform_call, set_isPlaying, modify, ret.
    destruct (isPlaying (voice w)); simpl; [destruct (Speech_stop _); reflexivity|].
    by rewrite app_nil_r.
  - unfold speak, try_catch, bind, get, when, platform_call, set_isPlaying, modify, throw, ret.
    intros e. destruct (no_text text); [discriminate|].
    destruct (isPlaying (voice w)); simpl.
    + destruct (Speech_stop _); simpl; [done|]. destruct (Speech_speak _); simpl; done.
    + destruct (Speech_speak _); simpl; done.
  - intros Hno. unfold speak, try_catch. by rewrite Hno.
Qed.

(** [getRecordingDuration] never throws. While the service is not
    recording it returns [0] without asking the recorder; while it is, the
    recorder is asked once, and [0] is returned when the recorder fails, when
    it has no status, or when the duration of the status is falsy. *)
Lemma getRecordingDuration_returns (w : World) :
  let run := getRecordingDuration w in
  if recording (voice w) && vs_isRecording (voice w)
  then
    trace (snd run) = trace w ++ [EvGetStatus]
    /\ fst run
       = Return match getStatusAsync (trace w) with
                | Return status =>
                    if nullish status then VNum 0
                    else js_or (get_member status "durationMillis") (VNum 0)
                | Throw _ => VNum 0
                end
  else run = (Return (VNum 0), w).
Proof.
  cbv zeta. unfold getRecordingDuration, try_catch, bind, get, platform_ask, member, ret.
  destruct (recording (voice w) && vs_isRecording (voice w)); simpl; [|reflexivity].
  destruct (getStatusAsync (trace w)) as [status|e]; simpl; [|done].
  destruct status; simpl; done.
Qed.

(** X19. [cleanup] never throws, whatever the speech engine and the
    recorder do, and leaves the service neither playing nor recording. *)
Theorem cleanup_returns (w : World) :
  fst (cleanup w) = Return tt
  /\ isPlaying (voice (snd (cleanup w))) = false
  /\ is_recording (snd (cleanup w)) = false.
Proof.
  unfold cleanup, stopSpeaking, stopRecording, try_catch, bind, get, when, platform_call,
    set_isPlaying, set_recording, modify, throw, ret, is_recording.
  destruct (isPlaying (voice w)) eqn:Hplay; simpl; [destruct (Speech_stop _); simpl|].
  all: destruct (vs_isRecording (voice w)) eqn:Hrec; simpl.
  all: destruct (recording (voice w)) eqn:Hrec'; simpl.
  all: repeat (destruct_effect; simpl).
  all: rewrite ?Hrec, ?Hrec'; simpl; repeat split; try done.
  all: rewrite Hrec in *; discriminate.
Qed.

End Speech.



(** ** The voice service: start-up and preferences *)

Section Preferences.
Context {B : Builtins} {P : Platform}.

Lemma loadUserPreferences_returns (w : World) : fst (loadUserPreferences w) = Return tt.
Proof.
  unfold loadUserPreferences, try_catch, bind, get, platform_call, member, set_speech, modify, ret.
  destruct (getItem _); simpl; [reflexivity|].
  destruct (storage w !! preferences_key) as [[]|]; reflexivity.
Qed.

(** X20. [initialize] throws [Audio recording permission denied] when the
    permission is not granted, before the audio mode is set or the
    preferences are read; it throws what the platform fails with; and once
    the permission is granted and the audio mode is set it returns [true],
    also when the preferences cannot be loaded. When it throws, the settings
    of the service are as they were. *)
Theorem initialize_outcome (w : World) :
  fst (initialize w)
  = match requestPermissionsAsync (trace w) with
    | Return status =>
        if String.eqb status "granted"
        then match setAudioModeAsync (trace w ++ [EvRequestPermissions]) with
             | None => Return true
             | Some e => Throw e
             end
        else Throw (Error "Audio recording permission denied")
    | Throw e => Throw e
    end
  /\ (forall status,
        requestPermissionsAsync (trace w) = Return status ->
        status ≠ "granted" ->
        snd (initialize w) = set_trace (fun t => t ++ [EvRequestPermissions]) w)
  /\ (forall e, fst (initialize w) = Throw e -> voice (snd (initialize w)) = voice w).
Proof.
  destruct (initialize w) as [r w'] eqn:Hrun. revert Hrun.
  unfold initialize, bind at 1, platform_ask. cbn [fst snd].
  destruct (requestPermissionsAsync (trace w)) as [status|e].
  2: { intros [= <- <-]. split; [reflexivity|]. split; [intros ? [=]|intros; reflexivity]. }
  destruct (String.eqb status "granted") eqn:Hs; cbn [negb]; unfold throw.
  2: { intros [= <- <-]. split; [reflexivity|]. split; [|intros; reflexivity].
       intros ? [= <-] _. reflexivity. }
  apply String.eqb_eq in Hs. subst status.
  unfold bind at 1, platform_call. cbn [trace set_trace].
  destruct (setAudioModeAsync _).
  { intros [= <- <-]. split; [reflexivity|]. split; [|intros; reflexivity]. by intros ? [= <-]. }
  unfold bind.
  match goal with
  | |- context [loadUserPreferences ?w1] =>
      pose proof (loadUserPreferences_returns w1) as Hl;
      destruct (loadUserPreferences w1) as [[[]|e] w2]; simpl in Hl; try discriminate
  end.
  intros [= <- <-]. split; [reflexivity|]. split; [|discriminate]. by intros ? [= <-].
Qed.

(** X21. The preferences that [saveUserPreferences] stores are what
    [loadUserPreferences] restores later, whatever the rate and the pitch of
    the service are by then: a rate and a pitch in their ranges come back as
    they were saved, and a rate or a pitch that was NaN, which is stored as
    [null], comes back as [1.0]. *)
Theorem preferences_round_trip (w w' : World) (rate pitch : float) :
  speechRate (voice w) = VNum rate ->
  speechPitch (voice w) = VNum pitch ->
  setItem (trace w) = None ->
  storage w' = storage (snd (saveUserPreferences w)) ->
  getItem (trace w') = None ->
  let loaded := voice (snd (loadUserPreferences w')) in
  (rate_in_range (VNum rate) = true -> speechRate loaded = VNum rate)
  /\ (pitch_in_range (VNum pitch) = true -> speechPitch loaded = VNum pitch)
  /\ (is_nan rate = true -> speechRate loaded = VNum 1.0)
  /\ (is_nan pitch = true -> speechPitch loaded = VNum 1.0).
Proof.
  intros Hrate Hpitch Hset Hstore Hget. cbv zeta.
  assert (storage w' !! preferences_key
          = Some (VObj (list_to_map [ ("speechRate", json_scalar (VNum rate));
                                      ("speechPitch", json_scalar (VNum pitch)) ])))
    as Hprefs.
  { rewrite Hstore.
    unfold saveUserPreferences, try_catch, bind, get, platform_call, modify. simpl.
    rewrite Hset, Hrate, Hpitch. simpl. by rewrite lookup_insert_eq. }
  assert (speechRate (voice (snd (loadUserPreferences w')))
          = js_or (json_scalar (VNum rate)) (VNum 1.0)
          /\ speechPitch (voice (snd (loadUserPreferences w')))
             = js_or (json_scalar (VNum pitch)) (VNum 1.0)) as [Hr Hp].
  { unfold loadUserPreferences, try_catch, bind, get, platform_call, member, set_speech,
      modify, ret.
    simpl. rewrite Hget. simpl. rewrite Hprefs. simpl.
    by destruct (is_nan rate || is_infinity rate), (is_zero rate),
         (is_nan pitch || is_infinity pitch), (is_zero pitch). }
  rewrite Hr, Hp. repeat split.
  - intros Hin. destruct (rate_in_range_scalar _ Hin) as [Ht ->]. unfold js_or. by rewrite Ht.
  - intros Hin. destruct (pitch_in_range_scalar _ Hin) as [Ht ->]. unfold js_or. by rewrite Ht.
  - intros Hnan. simpl. by rewrite Hnan.
  - intros Hnan. simpl. by rewrite Hnan.
Qed.

(** X22. From a configuration that [validateConfig] accepts, every state
    that the service reaches by calls of [setSpeechRate] and [setSpeechPitch]
    with numbers other than NaN and by loading the stored preferences has a
    rate in [0.1, 2.0] and a pitch in [0.5, 2.0], in the service and in the
    stored preferences. *)
Theorem settings_stay_in_range (pe : process_env) (calls : list settings_call) :
  validateConfig (ENV pe) = [] ->
  forallb not_NaN calls = true ->
  settings_in_range (settings_run calls (initial_world (E := ENV pe))).
Proof.
  intros Hconfig Hcalls.
  apply settings_run_in_range; [exact Hcalls|].
  by apply initial_world_in_range.
Qed.

Lemma clamp_nearest (lo x : float) :
  is_nan lo = false -> get_sign lo = false -> (lo <? 2.0)%float = true ->
  is_nan x = false ->
  Math_max lo (Math_min 2.0 x) = clamped lo x.
Proof.
  intros Hlo Hsign Hlt Hx. unfold Math_min, clamped. rewrite Hx. simpl.
  destruct (2.0 <? x)%float eqn:E1.
  - unfold Math_max. rewrite Hlo, Hlt. reflexivity.
  - assert (Math_min_2 : (if x <? 2.0 then x else x)%float = x)
      by (by destruct (x <? 2.0)%float).
    rewrite Math_min_2. unfold Math_max. rewrite Hlo, Hx, Hsign. simpl.
    destruct (lo <? x)%float; [reflexivity|]. by destruct (x <? lo)%float.
Qed.

(** X23. For every argument other than NaN, [setSpeechRate] stores the
    argument itself when it lies between the bounds, [2.0] when it is larger
    and [0.1] when it is smaller, and [setSpeechPitch] does the same with the
    lower bound [0.5]; the stored value is in range, and the other setting is
    left as it was. *)
Theorem setters_clamp_to_bounds (x : float) (w : World) :
  is_nan x = false ->
  speechRate (voice (snd (setSpeechRate x w))) = VNum (clamped 0.1 x)
  /\ speechPitch (voice (snd (setSpeechRate x w))) = speechPitch (voice w)
  /\ speechPitch (voice (snd (setSpeechPitch x w))) = VNum (clamped 0.5 x)
  /\ speechRate (voice (snd (setSpeechPitch x w))) = speechRate (voice w)
  /\ rate_in_range (VNum (clamped 0.1 x)) = true
  /\ pitch_in_range (VNum (clamped 0.5 x)) = true.
Proof.
  intros Hx.
  destruct (setSpeechRate_stores x w) as [Hr Hrp].
  destruct (setSpeechPitch_stores x w) as [Hp Hpr].
  rewrite Hr, Hrp, Hp, Hpr.
  rewrite <- !clamp_nearest by (reflexivity || exact Hx).
  repeat split.
  - unfold rate_in_range. by destruct (clamp_in_range 0.1 2.0 x) as [-> ->].
  - unfold pitch_in_range. by destruct (clamp_in_range 0.5 2.0 x) as [-> ->].
Qed.

End Preferences.

Lemma preferences_round_trip_witness :
  speechRate (voice (snd (loadUserPreferences (B := example_builtins)
    (P := example_platform (NetworkError "") (Return "") None)
    (snd (saveUserPreferences (P := example_platform (NetworkError "") (Return "") None)
            (initial_world (E := example_env)))))))
  = VNum 1.0.
Proof.
  refine (proj1 (preferences_round_trip (B := example_builtins)
    (P := example_platform (NetworkError "") (Return "") None)
    (initial_world (E := example_env))
    (snd (saveUserPreferences (P := example_platform (NetworkError "") (Return "") None)
            (initial_world (E := example_env)))) 1.0 1.0 _ _ _ _ _) _); reflexivity.
Defined.

Lemma settings_stay_in_range_witness :
  settings_in_range
    (settings_run (B := example_builtins)
       (P := example_platform (NetworkError "") (Return "") None)
       [SetSpeechRate 5.0; LoadUserPreferences; SetSpeechPitch 0.25]
       (initial_world (E := example_env))).
Proof.
  apply (settings_stay_in_range (B := example_builtins)
           (P := example_platform (NetworkError "") (Return "") None)
           (ProcessEnv (Some "sk-test") nan nan None)
           [SetSpeechRate 5.0; LoadUserPreferences; SetSpeechPitch 0.25]); reflexivity.
Defined.

Lemma setters_clamp_to_bounds_witness :
  speechRate (voice (snd (setSpeechRate (P := example_platform (NetworkError "") (Return "") None)
                            5.0 (initial_world (E := example_env)))))
  = VNum 2.0.
Proof.
  refine (eq_trans (proj1 (setters_clamp_to_bounds
    (P := example_platform (NetworkError "") (Return "") None)
    5.0 (initial_world (E := example_env)) _)) _); reflexivity.
Defined.



(** ** The voice button *)

Section ButtonHandlers.
Context {B : Builtins} {E : Env} {P : Platform}.
Variable props : VoiceButton_props.

Lemma handleStartRecording_returns (w : World) :
  fst (handleStartRecording props w) = Return tt.
Proof.
  unfold handleStartRecording, bind at 1, get. cbv beta iota.
  destruct (negb (isInitialized (button w))); [reflexivity|].
  unfold try_catch.
  destruct (bind _ _ w) as [[[]|e] w']; simpl; [reflexivity|].
  by destruct (onError props).
Qed.

Lemma durationTimer_callback_returns (w : World) :
  fst (durationTimer_callback w) = Return tt.
Proof.
  unfold durationTimer_callback, try_catch.
  destruct (bind _ _ w) as [[[]|e] w']; reflexivity.
Qed.

(** X24. No handler of the voice button lets an error escape: a press, a
    tick of the duration interval and the firing of the timeout all return,
    whatever the recorder, the file system, the network and the storage do. *)
Theorem button_step_returns (i : button_input) (w : World) :
  fst (button_step props i w) = Return tt.
Proof.
  destruct i as [| |dt]; unfold button_step.
  - unfold handlePress, bind, get. cbv beta iota.
    destruct (disabled props || isTranscribing (button w)); [reflexivity|].
    destruct (vb_isRecording (button w)).
    + apply handleStopRecording_returns.
    + apply handleStartRecording_returns.
  - unfold bind, get, when. cbv beta iota.
    destruct (durationTimer (button w)); [apply durationTimer_callback_returns | reflexivity].
  - unfold bind at 1 2, modify, get. cbv beta iota.
    destruct (maxTimeTimer (button _)) as [due|]; [|reflexivity].
    destruct (due <=? _)%Z; [|reflexivity].
    unfold bind at 1, set_timers, modify. cbv beta iota.
    unfold maxTimeTimer_callback, bind.
    match goal with
    | |- context [handleStopRecording props true ?w1] =>
        pose proof (handleStopRecording_returns props true w1) as Hret;
        destruct (handleStopRecording props true w1) as [r w2]
    end.
    simpl in Hret. subst r. reflexivity.
Qed.

(** With no timer pending, a tick of the interval and the passing of time
    start no callback: they do nothing but advance the clock. *)
Lemma timers_cleared_run (inputs : list button_input) :
  forall w, no_press inputs = true ->
            durationTimer (button w) = false ->
            maxTimeTimer (button w) = None ->
            button_run props inputs w = set_now (fun t => t + total_elapsed inputs)%Z w.
Proof.
  induction inputs as [|i inputs IH]; intros w Hnp Hd Hm; simpl.
  - destruct w. unfold set_now. simpl. f_equal. lia.
  - apply andb_true_iff in Hnp as [Hi Hnp].
    destruct i as [| |dt]; [discriminate| |].
    + unfold button_step, bind, get, when. cbv beta iota. rewrite Hd. simpl.
      by apply IH.
    + rewrite (elapse_idle props dt w Hm). rewrite IH; [|exact Hnp|exact Hd|exact Hm].
      unfold set_now. simpl. f_equal. lia.
Qed.


End ButtonHandlers.




(** ** styles/theme.js *)

Lemma ltb_negb_leb (c x : float) :
  is_nan c = false -> is_nan x = false -> (x <? c)%float = negb (c <=? x)%float.
Proof.
  intros Hc%is_nan_Prim2SF Hx%is_nan_Prim2SF.
  rewrite FloatAxioms.ltb_spec, FloatAxioms.leb_spec. unfold SFltb, SFleb.
  destruct (SFcompare_total _ _ Hc Hx) as [cmp Hcmp]. rewrite Hcmp.
  rewrite (SFcompare_antisym _ _ _ Hcmp). by destruct cmp.
Qed.

(** A number that is at least 768 is at least 360, and one that is at
    least 1024 is at least 768. *)
Lemma breakpoints_ordered (x : float) :
  ((breakpoints_medium <=? x)%float = true -> (breakpoints_small <=? x)%float = true)
  /\ ((breakpoints_large <=? x)%float = true -> (breakpoints_medium <=? x)%float = true).
Proof.
  rewrite !FloatAxioms.leb_spec. unfold SFleb.
  change (Prim2SF breakpoints_small) with (S754_finite false 6333186975989760 (-44)).
  change (Prim2SF breakpoints_medium) with (S754_finite false 6755399441055744 (-43)).
  change (Prim2SF breakpoints_large) with (S754_finite false 4503599627370496 (-42)).
  destruct (Prim2SF x) as [s|s| |s m e]; unfold SFcompare; try destruct s; try done.
  split.
  - destruct (Z.compare_spec (-43) e), (Z.compare_spec (-44) e); try done; lia.
  - destruct (Z.compare_spec (-42) e), (Z.compare_spec (-43) e); try done; lia.
Qed.

(** NaN compares with no number. *)
Lemma NaN_unordered (x : float) :
  is_nan x = true ->
  forall c, (c <=? x)%float = false /\ (x <? c)%float = false.
Proof.
  unfold is_nan. rewrite FloatAxioms.eqb_spec. intros Hnan c.
  rewrite FloatAxioms.leb_spec, FloatAxioms.ltb_spec.
  assert (Prim2SF x = S754_nan) as ->.
  { destruct (Prim2SF x) as [s|s| |s m e] eqn:Hx; [| |reflexivity|]; exfalso; revert Hnan;
      unfold SFeqb; rewrite SFcompare_refl; done. }
  by destruct (Prim2SF c).
Qed.

(** X26. Every width of the window that is a number falls in exactly one
    of the four size classes [isSmall], [isMedium], [isLarge] and [isXLarge];
    [isTablet] holds exactly for the large and the extra large class and
    [isDesktop] exactly for the extra large one. For a width that is NaN no
    class holds. *)
Theorem deviceType_partition (screenWidth : float) :
  let d := deviceType screenWidth in
  size_classes d = (if is_nan screenWidth then 0 else 1)
  /\ isTablet d = isLarge d || isXLarge d
  /\ isDesktop d = isXLarge d.
Proof.
  cbv zeta. unfold size_classes, deviceType. cbn [isSmall isMedium isLarge isXLarge isTablet isDesktop].
  destruct (breakpoints_ordered screenWidth) as [Hms Hlm].
  destruct (is_nan screenWidth) eqn:Hnan.
  - pose proof (NaN_unordered screenWidth Hnan) as Hc.
    rewrite !(proj1 (Hc _)), !(proj2 (Hc _)). done.
  - rewrite !(ltb_negb_leb _ screenWidth) by (reflexivity || exact Hnan).
    destruct (breakpoints_large <=? screenWidth)%float.
    + rewrite (Hlm eq_refl), (Hms (Hlm eq_refl)). done.
    + destruct (breakpoints_medium <=? screenWidth)%float.
      * rewrite (Hms eq_refl). done.
      * by destruct (breakpoints_small <=? screenWidth)%float.
Qed.

(** X27. [responsive.getValue] never yields [undefined] for an argument
    that is not [undefined], and returns a value that is not an object as it
    is. For a plain object that defines all four size classes, on a device
    whose width is a number, the result is the entry of one of the four
    classes. *)
Theorem getValue_defined {B : Builtins} (d : DeviceType) (values : value) :
  (defined values = true -> defined (getValue d values) = true)
  /\ (is_object values = false -> getValue d values = values)
  /\ (forall (o : ValueMap) (screenWidth : float),
        values = VObj o ->
        d = deviceType screenWidth ->
        is_nan screenWidth = false ->
        (forall k, k ∈ ["small"; "medium"; "large"; "xlarge"] -> defined (obj_get o k) = true) ->
        exists k, k ∈ ["small"; "medium"; "large"; "xlarge"] /\ getValue d values = obj_get o k).
Proof.
  split; [|split].
  - intros Hdef. unfold getValue.
    destruct (is_object values); [|exact Hdef].
    repeat match goal with
           | |- context [?b && defined ?v] =>
               destruct b; simpl; [destruct (defined v) eqn:?; [assumption|]|]
           end.
    all: unfold js_or; destruct (truthy (get_member values "default")) eqn:Ht; try exact Hdef.
    all: by destruct (get_member values "default").
  - intros Hobj. unfold getValue. by rewrite Hobj.
  - intros o screenWidth -> -> Hnan Hall.
    pose proof (Hall "small" ltac:(list_member)) as Hs.
    pose proof (Hall "medium" ltac:(list_member)) as Hm.
    pose proof (Hall "large" ltac:(list_member)) as Hl.
    pose proof (Hall "xlarge" ltac:(list_member)) as Hx.
    destruct (breakpoints_ordered screenWidth) as [Hms Hlm].
    unfold getValue, deviceType. simpl. rewrite Hs, Hm, Hl, Hx, !andb_true_r.
    rewrite !(ltb_negb_leb _ screenWidth) by (reflexivity || exact Hnan).
    destruct (breakpoints_large <=? screenWidth)%float.
    { exists "xlarge". split; [list_member | reflexivity]. }
    destruct (breakpoints_medium <=? screenWidth)%float; simpl.
    { exists "large". split; [list_member | reflexivity]. }
    destruct (breakpoints_small <=? screenWidth)%float; simpl.
    { exists "medium". split; [list_member | reflexivity]. }
    exists "small". split; [list_member | reflexivity].
Qed.

(** A phone, a tablet at the first breakpoint of its class, and a width
    that is no number; a responsive value on a tablet. *)
Example deviceType_examples :
  deviceType 320 = MkDeviceType true false false false false false
  /\ deviceType 768 = MkDeviceType false false true false true false
  /\ deviceType nan = MkDeviceType false false false false false false
  /\ getValue (B := example_builtins) (deviceType 800)
       (VObj {[ "small" := VNum 8; "large" := VNum 24; "default" := VNum 16 ]})
     = VNum 24
  /\ getValue (B := example_builtins) (deviceType 400)
       (VObj {[ "small" := VNum 8; "large" := VNum 24; "default" := VNum 16 ]})
     = VNum 16.
Proof. vm_compute. repeat split; reflexivity. Qed.

(** ** components/ResultsDisplay.js *)

(** X28. App passes no [error] to ResultsDisplay and renders it only when
    there are results: in App the component shows the loading indicator while
    a request runs and the results otherwise, and never the error with its
    Retry button nor the text [No results to display]. *)
Theorem App_results_screen (a : App_state) :
  App_results a
  = if String.eqb (currentView a) "results" && truthy (apiResults a)
    then Some (if loading a then LoadingScreen else ResultsScreen)
    else None.
Proof.
  unfold App_results, ResultsDisplay.
  destruct (String.eqb (currentView a) "results"); [|reflexivity].
  destruct (truthy (apiResults a)) eqn:Ht; [|reflexivity]. simpl.
  destruct (loading a); by rewrite ?Ht.
Qed.



(** ** components/VoiceButton.js: the displayed duration *)

Lemma string_app_length (s t : string) :
  String.length (s +:+ t) = String.length s + String.length t.
Proof. induction s as [|c s IH]; simpl; [reflexivity | by rewrite IH]. Qed.

Lemma string_app_inv_r (t : string) :
  forall x y : string, x +:+ t = y +:+ t -> x = y.
Proof.
  induction x as [|c x IH]; intros [|d y] Heq; simpl in *.
  - reflexivity.
  - apply (f_equal String.length) in Heq. simpl in Heq. rewrite !string_app_length in Heq.
    simpl in Heq. lia.
  - apply (f_equal String.length) in Heq. simpl in Heq. rewrite !string_app_length in Heq.
    simpl in Heq. lia.
  - injection Heq as -> Heq. f_equal. by apply IH.
Qed.

Lemma last_char_app (s t : string) :
  t ≠ "" -> last_char (s +:+ t) = last_char t.
Proof.
  intros Ht. induction s as [|c s IH]; simpl; [reflexivity|].
  rewrite IH. destruct (s +:+ t) eqn:Hst; [|reflexivity].
  clear IH. exfalso. destruct s; simpl in Hst; [by apply Ht | discriminate].
Qed.

Lemma last_char_digit (s : string) :
  all_digits s = true -> s ≠ "" -> exists c, last_char s = Some c /\ is_Some (Ascii.is_nat c).
Proof.
  induction s as [|c s IH]; intros Hd Hne; [done|].
  simpl in Hd. apply andb_true_iff in Hd as [Hc Hd]. apply bool_decide_eq_true in Hc.
  destruct s as [|c' s]; [by exists c|].
  destruct IH as (d & Hl & Hdig); [exact Hd | done|]. by exists d.
Qed.

Lemma pretty_N_go_digits (x : N) :
  forall s, all_digits s = true -> all_digits (pretty_N_go x s) = true.
Proof.
  induction (N.lt_wf_0 x) as [x _ IH]; intros s Hs.
  assert (x = 0 \/ 0 < x)%N as [->|Hpos] by lia; [by rewrite pretty_N_go_0|].
  rewrite pretty_N_go_step by done. apply IH; [by apply N.div_lt|].
  simpl. rewrite Hs, andb_true_r. apply bool_decide_eq_true.
  unfold pretty_N_char. repeat case_match; by eexists.
Qed.

Lemma pretty_digits (z : Z) : (0 <= z)%Z -> all_digits (pretty z) = true.
Proof.
  destruct z as [|p|p]; intros Hz; [reflexivity| |lia].
  unfold pretty, pretty_Z, pretty, pretty_positive, pretty, pretty_N.
  case_decide; [reflexivity|]. by apply pretty_N_go_digits.
Qed.

Lemma two_digits_padStart (r : Z) :
  (0 <= r < 60)%Z -> two_digits (padStart_2_0 (pretty r)) = Some (Z.to_nat r).
Proof.
  intros Hr. rewrite <- (Z2Nat.id r) by lia.
  assert (Z.to_nat r < 60) as Hn by lia. revert Hn. generalize (Z.to_nat r). intros n Hn.
  do 60 (destruct n as [|n]; [reflexivity|]). lia.
Qed.

Lemma two_digits_shape (s : string) (n : nat) :
  two_digits s = Some n -> all_digits s = true /\ s ≠ "".
Proof.
  destruct s as [|c1 [|c2 [|c3 s]]]; try discriminate. simpl.
  destruct (Ascii.is_nat c1) eqn:H1, (Ascii.is_nat c2) eqn:H2; try discriminate.
  intros _. split; [reflexivity | done].
Qed.

(** Two strings of digits that are followed by a colon. *)
Lemma split_at_colon (s t : string) :
  forall x y : string,
    all_digits x = true -> all_digits y = true ->
    x +:+ ":" +:+ s = y +:+ ":" +:+ t -> x = y /\ s = t.
Proof.
  induction x as [|c x IH]; intros [|d y] Hx Hy Heq; simpl in *.
  - by injection Heq.
  - injection Heq as <- _. apply andb_true_iff in Hy as [Hc%bool_decide_eq_true _].
    by destruct Hc.
  - injection Heq as -> _. apply andb_true_iff in Hx as [Hc%bool_decide_eq_true _].
    by destruct Hc.
  - injection Heq as -> Heq.
    apply andb_true_iff in Hx as [_ Hx]. apply andb_true_iff in Hy as [_ Hy].
    destruct (IH y Hx Hy Heq) as [-> ->]. done.
Qed.

(** X29. The displayed duration of a recording tells the whole seconds of
    it apart: two durations that are not negative are displayed alike only
    when they have the same number of whole seconds. *)
Theorem formatDuration_seconds (a b : Z) :
  (0 <= a)%Z -> (0 <= b)%Z ->
  formatDuration a = formatDuration b ->
  (a / 1000 = b / 1000)%Z.
Proof.
  intros Ha Hb. unfold formatDuration. cbv zeta.
  assert (0 <= a / 1000)%Z as Hsa by (apply Z.div_pos; lia).
  assert (0 <= b / 1000)%Z as Hsb by (apply Z.div_pos; lia).
  revert Hsa Hsb. generalize (a / 1000)%Z (b / 1000)%Z. clear a b Ha Hb. intros a b Ha Hb.
  rewrite !Z.rem_mod_nonneg by lia.
  pose proof (Z.mod_pos_bound a 60 ltac:(lia)) as Hra.
  pose proof (Z.mod_pos_bound b 60 ltac:(lia)) as Hrb.
  pose proof (Z.div_mod a 60 ltac:(lia)) as Hda.
  pose proof (Z.div_mod b 60 ltac:(lia)) as Hdb.
  assert (0 <= a / 60)%Z as Hma by (apply Z.div_pos; lia).
  assert (0 <= b / 60)%Z as Hmb by (apply Z.div_pos; lia).
  pose proof (two_digits_padStart _ Hra) as Hpa.
  pose proof (two_digits_padStart _ Hrb) as Hpb.
  destruct (two_digits_shape _ _ Hpa) as [Hpa1 Hpa2].
  destruct (two_digits_shape _ _ Hpb) as [Hpb1 Hpb2].
  destruct (Z.ltb_spec 0 (a / 60)) as [Hmina|Hmina], (Z.ltb_spec 0 (b / 60)) as [Hminb|Hminb].
  - intros Heq. apply split_at_colon in Heq as [Hm Hp]; [|by apply pretty_digits..].
    apply (inj pretty) in Hm. rewrite Hp in Hpa. rewrite Hpa in Hpb. injection Hpb as Hr.
    lia.
  - intros Heq. apply (f_equal last_char) in Heq.
    rewrite last_char_app in Heq by done. rewrite last_char_app in Heq by done.
    rewrite last_char_app in Heq by done.
    destruct (last_char_digit _ Hpa1 Hpa2) as (c & Hc & Hdig).
    rewrite Hc in Heq. simpl in Heq. injection Heq as ->. by destruct Hdig.
  - intros Heq. apply (f_equal last_char) in Heq.
    rewrite last_char_app in Heq by done. rewrite last_char_app in Heq by done.
    rewrite last_char_app in Heq by done.
    destruct (last_char_digit _ Hpb1 Hpb2) as (c & Hc & Hdig).
    rewrite Hc in Heq. simpl in Heq. injection Heq as <-. by destruct Hdig.
  - intros Heq%string_app_inv_r. apply (inj pretty) in Heq. lia.
Qed.

Lemma formatDuration_seconds_witness :
  formatDuration 61500 = "1:01" /\ formatDuration 59999 = "59s" /\ (61500 / 1000 = 61999 / 1000)%Z.
Proof.
  split; [reflexivity|]. split; [reflexivity|].
  apply (formatDuration_seconds 61500 61999); [lia | lia | reflexivity].
Defined.



(** ** App.js: loading a model *)

Section LoadModel.
Context {B : Builtins} {P : Platform}.

Lemma parseSchema_run (modelDefinition modelName' : value) (w : World) :
  parseSchema modelDefinition modelName' w
  = (api_outcome "Failed to parse schema: "
       (http (trace w) "/parse-schema"
          (VObj (list_to_map [ ("model_definition", modelDefinition);
                               ("model_name", modelName') ]))),
     set_trace (fun t => t ++ [EvPost "/parse-schema"
       (VObj (list_to_map [ ("model_definition", modelDefinition);
                            ("model_name", modelName') ]))]) w).
Proof.
  unfold parseSchema, try_catch, bind, apiClient_post, throw, ret, api_outcome.
  destruct (http _ _ _) as [st d|m]; [destruct (_ && _)|]; reflexivity.
Qed.

(** X30. [loadCustomModel] sends nothing when the definition or the name
    of the model is blank: it shows an alert and changes nothing else. It
    never throws and leaves the loading flag cleared. When the request fails,
    the schema, the ValueMap, the results and the view stay as they were and
    the modal stays open with what the user typed. When the server answers
    with an object, the schema becomes [schema_data] of the answer, the
    ValueMap is emptied, the results are dropped, the form is shown, and the
    modal is closed and cleared. *)
Theorem loadCustomModel_outcome (m : Model_state) (w : World) :
  let run := loadCustomModel m w in
  let answer := api_outcome "Failed to parse schema: " (http (trace w) "/parse-schema" (parse_body m)) in
  if String.eqb (trim (customModel m)) "" || String.eqb (trim (modelName m)) ""
  then
    run = (Return m,
           set_trace (fun t => t ++ [EvAlert "Error" "Please provide both model definition and name"]) w)
  else
    posts (trace (snd run)) = posts (trace w) ++ [("/parse-schema", parse_body m)]
    /\ loading (app (snd run)) = false
    /\ (forall e, answer = Throw e ->
          fst run = Return m
          /\ app_formData (app (snd run)) = app_formData (app w)
          /\ apiResults (app (snd run)) = apiResults (app w)
          /\ currentView (app (snd run)) = currentView (app w))
    /\ (forall o, answer = Return (VObj o) ->
          fst run = Return (ModelState (obj_get o "schema_data") false "" "")
          /\ app_formData (app (snd run)) = VObj ∅
          /\ apiResults (app (snd run)) = VNull
          /\ currentView (app (snd run)) = "form")
    /\ exists m', fst run = Return m'.
Proof.
  cbv zeta. destruct (loadCustomModel m w) as [r w'] eqn:Hrun. revert Hrun.
  unfold loadCustomModel, parse_body.
  destruct (String.eqb (trim (customModel m)) "" || String.eqb (trim (modelName m)) "").
  { by intros [= <- <-]. }
  unfold try_finally, try_catch, bind at 1 2, setLoading, modify. cbv beta iota.
  rewrite parseSchema_run. cbn [trace set_app set_trace].
  destruct (api_outcome _ _) as [response|e]; simpl.
  - unfold bind, member, Alert_alert, emit, modify, ret.
    destruct response; simpl; intros [= <- <-]; simpl.
    all: split; [unfold posts; rewrite !omap_app; simpl; by rewrite ?app_nil_r|].
    all: split; [reflexivity|].
    all: split; [intros ? [=]|].
    all: split; [first [by intros ? [= <-] | by intros ? [=]]|by eexists].
  - unfold bind, Alert_alert, emit, modify, ret. intros [= <- <-]. simpl.
    split; [unfold posts; rewrite !omap_app; simpl; by rewrite ?app_nil_r|].
    split; [reflexivity|]. split; [by intros ? [= <-]|]. split; [intros ? [=]|by eexists].
Qed.

End LoadModel.

(** A model that the server parses, and one that it rejects. *)
Example loadCustomModel_examples :
  fst (loadCustomModel (B := example_builtins)
         (P := example_platform
                 (HttpResponse 200 (VObj {[ "schema_data" := VObj {[ "model_name" := VStr "Pet" ]} ]}))
                 (Return "") None)
         (ModelState VNull true "class Pet(BaseModel): ..." "Pet")
         (initial_world (E := example_env)))
  = Return (ModelState (VObj {[ "model_name" := VStr "Pet" ]}) false "" "")
  /\ fst (loadCustomModel (B := example_builtins)
            (P := example_platform (HttpResponse 422 (VObj {[ "detail" := VStr "Invalid model" ]}))
                    (Return "") None)
            (ModelState VNull true "class" "Pet") (initial_world (E := example_env)))
     = Return (ModelState VNull true "class" "Pet")
  /\ trace (snd (loadCustomModel (B := example_builtins)
                   (P := example_platform
                           (HttpResponse 422 (VObj {[ "detail" := VStr "Invalid model" ]}))
                           (Return "") None)
                   (ModelState VNull true "class" "Pet") (initial_world (E := example_env))))
     = [EvPost "/parse-schema" (parse_body (ModelState VNull true "class" "Pet"));
        EvAlert "Error" "Failed to parse custom model: Failed to parse schema: Invalid model"].
Proof. vm_compute. repeat split; reflexivity. Qed.
